(** * Object storage gateway of Reactive-Resume: a shallow embedding

    The development follows [StorageService] (the NestJS service that wraps
    the MinIO client and the sharp image pipeline):

    - [JS]        the JavaScript built-ins the service calls
                  ([encodeURIComponent], [decodeURIComponent],
                  [JSON.stringify], [String.prototype.replace]);
    - [Sharp]     [sharp(...).resize(...).jpeg(...)]: what it accepts and the
                  geometry of what it produces;
    - [Storage]   the service itself, written against an abstract client;
    - [MemStore]  a reference in-memory, S3-like client used to state the
                  properties that talk about the contents of the store;
    - [Spec]      the contract in the words of the specification;
    - [Examples]  concrete configurations, stores and inputs.

    The properties follow: the percent-encoding round trip, the bucket
    policy, the behaviour of each method over an arbitrary client and over
    the reference store, and the statements about the specification. *)

From Stdlib Require Import ZArith List Ascii String Bool Lia.
From stdpp Require Import base option list gmap.
Import ListNotations.

Set Warnings "-register-all".
Local Open Scope Z_scope.

(** ** JavaScript strings and built-ins *)

Module JS.

(** A JavaScript string is a sequence of UTF-16 code units. *)
Abbreviation jsstring := (list Z).

Definition code_unit (u : Z) : Prop := 0 <= u < 65536.

Definition code_units (s : jsstring) : Prop := Forall code_unit s.

(** Source literals are ASCII; [lit] turns one into its code units. *)
Fixpoint lit (s : string) : jsstring :=
  match s with
  | EmptyString => []
  | String a s' => Z.of_N (N_of_ascii a) :: lit s'
  end.

(** [a === b] on strings. *)
Fixpoint strict_equal (a b : jsstring) : bool :=
  match a, b with
  | [], [] => true
  | x :: a', y :: b' => (x =? y) && strict_equal a' b'
  | _, _ => false
  end.

Definition is_high_surrogate (u : Z) : bool := (55296 <=? u) && (u <=? 56319).
Definition is_low_surrogate (u : Z) : bool := (56320 <=? u) && (u <=? 57343).

(** [String.prototype.isWellFormed]: no lone surrogate. *)
Fixpoint isWellFormed (s : jsstring) : bool :=
  match s with
  | [] => true
  | c :: rest =>
      if is_high_surrogate c then
        match rest with
        | d :: rest' => is_low_surrogate d && isWellFormed rest'
        | [] => false
        end
      else if is_low_surrogate c then false
      else isWellFormed rest
  end.

(** The set [uriUnreserved] of ECMA-262: [A-Z a-z 0-9 - _ . ! ~ * ' ( )]. *)
Definition uriUnreserved (u : Z) : bool :=
  ((65 <=? u) && (u <=? 90)) || ((97 <=? u) && (u <=? 122))
  || ((48 <=? u) && (u <=? 57))
  || (u =? 45) || (u =? 95) || (u =? 46) || (u =? 33) || (u =? 126)
  || (u =? 42) || (u =? 39) || (u =? 40) || (u =? 41).

(** Upper-case hexadecimal digit of a nibble, and the value of a digit
    (ParseHexOctet accepts both cases). *)
Definition hexdigit (d : Z) : Z := if d <? 10 then 48 + d else 55 + d.

Definition hexval (c : Z) : option Z :=
  if (48 <=? c) && (c <=? 57) then Some (c - 48)
  else if (65 <=? c) && (c <=? 70) then Some (c - 55)
  else if (97 <=? c) && (c <=? 102) then Some (c - 87)
  else None.

Definition percent : Z := 37.

(** ["%" + hex.padStart(2, "0")] for one octet. *)
Definition escape_octet (b : Z) : jsstring :=
  [percent; hexdigit (b / 16); hexdigit (b mod 16)].

Definition escape_octets (bs : list Z) : jsstring :=
  flat_map escape_octet bs.

(** The UTF-8 transformation of a code point (RFC 3629, table 3). *)
Definition utf8_encode (cp : Z) : list Z :=
  if cp <? 128 then [cp]
  else if cp <? 2048 then [192 + cp / 64; 128 + cp mod 64]
  else if cp <? 65536 then
    [224 + cp / 4096; 128 + (cp / 64) mod 64; 128 + cp mod 64]
  else
    [240 + cp / 262144; 128 + (cp / 4096) mod 64;
     128 + (cp / 64) mod 64; 128 + cp mod 64].

(** [CodePointAt] on a surrogate pair. *)
Definition surrogate_pair_code_point (lead trail : Z) : Z :=
  (lead - 55296) * 1024 + (trail - 56320) + 65536.

(** [Encode(string, "")] of ECMA-262; [None] stands for the [URIError] thrown
    on a lone surrogate. *)
Fixpoint Encode (s : jsstring) : option jsstring :=
  match s with
  | [] => Some []
  | c :: rest =>
      if uriUnreserved c then
        match Encode rest with
        | Some r => Some (c :: r)
        | None => None
        end
      else if is_high_surrogate c then
        match rest with
        | d :: rest' =>
            if is_low_surrogate d then
              match Encode rest' with
              | Some r =>
                  Some (escape_octets
                          (utf8_encode (surrogate_pair_code_point c d)) ++ r)
              | None => None
              end
            else None
        | [] => None
        end
      else if is_low_surrogate c then None
      else
        match Encode rest with
        | Some r => Some (escape_octets (utf8_encode c) ++ r)
        | None => None
        end
  end.

Definition encodeURIComponent (s : jsstring) : option jsstring := Encode s.

(** One ["%XX"] escape at the head of the input. *)
Definition parse_escape (s : jsstring) : option (Z * jsstring) :=
  match s with
  | p :: h :: l :: rest =>
      if p =? percent then
        match hexval h, hexval l with
        | Some a, Some b => Some (16 * a + b, rest)
        | _, _ => None
        end
      else None
  | _ => None
  end.

Fixpoint read_continuation (n : nat) (s : jsstring)
  : option (list Z * jsstring) :=
  match n with
  | O => Some ([], s)
  | S n' =>
      match parse_escape s with
      | Some (b, s1) =>
          match read_continuation n' s1 with
          | Some (bs, s2) => Some (b :: bs, s2)
          | None => None
          end
      | None => None
      end
  end.

(** Number of leading 1 bits of an octet (5 stands for "more than 4"). *)
Definition leading_ones (b : Z) : nat :=
  if b <? 128 then 0%nat
  else if b <? 192 then 1%nat
  else if b <? 224 then 2%nat
  else if b <? 240 then 3%nat
  else if b <? 248 then 4%nat
  else 5%nat.

Definition is_continuation (b : Z) : bool := (128 <=? b) && (b <=? 191).

(** The code point of a valid UTF-8 sequence: shortest form only, no
    surrogates, at most U+10FFFF. *)
Definition utf8_decode (octets : list Z) : option Z :=
  match octets with
  | [b0; b1] =>
      let v := (b0 - 192) * 64 + (b1 - 128) in
      if is_continuation b1 && (128 <=? v) then Some v else None
  | [b0; b1; b2] =>
      let v := (b0 - 224) * 4096 + (b1 - 128) * 64 + (b2 - 128) in
      if is_continuation b1 && is_continuation b2 && (2048 <=? v)
         && negb ((55296 <=? v) && (v <=? 57343))
      then Some v else None
  | [b0; b1; b2; b3] =>
      let v := (b0 - 240) * 262144 + (b1 - 128) * 4096
               + (b2 - 128) * 64 + (b3 - 128) in
      if is_continuation b1 && is_continuation b2 && is_continuation b3
         && (65536 <=? v) && (v <=? 1114111)
      then Some v else None
  | _ => None
  end.

Definition UTF16EncodeCodePoint (cp : Z) : jsstring :=
  if cp <=? 65535 then [cp]
  else [(cp - 65536) / 1024 + 55296; (cp - 65536) mod 1024 + 56320].

(** [Decode(string, "")] of ECMA-262. Every iteration of the loop consumes at
    least one code unit, so the length of the input is enough fuel. *)
Fixpoint Decode (fuel : nat) (s : jsstring) : option jsstring :=
  match s with
  | [] => Some []
  | c :: rest =>
      match fuel with
      | O => None
      | S fuel' =>
          if c =? percent then
            match parse_escape s with
            | Some (b, s1) =>
                match leading_ones b with
                | 0%nat =>
                    match Decode fuel' s1 with
                    | Some r => Some (b :: r)
                    | None => None
                    end
                | 1%nat => None
                | S n =>
                    if (4 <? S n)%nat then None
                    else
                      match read_continuation n s1 with
                      | Some (bs, s2) =>
                          match utf8_decode (b :: bs) with
                          | Some v =>
                              match Decode fuel' s2 with
                              | Some r => Some (UTF16EncodeCodePoint v ++ r)
                              | None => None
                              end
                          | None => None
                          end
                      | None => None
                      end
                end
            | None => None
            end
          else
            match Decode fuel' rest with
            | Some r => Some (c :: r)
            | None => None
            end
      end
  end.

Definition decodeURIComponent (s : jsstring) : option jsstring :=
  Decode (length s) s.

(** The result of one iteration of [Decode] followed by the rest of the
    loop. *)
Definition continue_with (prefix : jsstring) (o : option jsstring)
  : option jsstring :=
  match o with
  | Some r => Some (prefix ++ r)
  | None => None
  end.

(** *** [JSON.stringify] on the values the service serialises *)

Inductive json :=
| JString (s : jsstring)
| JArray (elements : list json)
| JObject (members : list (jsstring * json)).

Definition quotation_mark : Z := 34.
Definition reverse_solidus : Z := 92.

Definition lower_hexdigit (d : Z) : Z := if d <? 10 then 48 + d else 87 + d.

(** [UnicodeEscape]: a backslash, [u] and four lower-case hex digits. *)
Definition UnicodeEscape (u : Z) : jsstring :=
  [reverse_solidus; 117; lower_hexdigit (u / 4096);
   lower_hexdigit ((u / 256) mod 16); lower_hexdigit ((u / 16) mod 16);
   lower_hexdigit (u mod 16)].

Definition quote_code_unit (u : Z) : jsstring :=
  if u =? 8 then [reverse_solidus; 98]
  else if u =? 9 then [reverse_solidus; 116]
  else if u =? 10 then [reverse_solidus; 110]
  else if u =? 12 then [reverse_solidus; 102]
  else if u =? 13 then [reverse_solidus; 114]
  else if u =? quotation_mark then [reverse_solidus; quotation_mark]
  else if u =? reverse_solidus then [reverse_solidus; reverse_solidus]
  else if u <? 32 then UnicodeEscape u
  else [u].

(** The characters of [QuoteJSONString] between the two quotation marks:
    lone surrogates are escaped, surrogate pairs are kept. *)
Fixpoint quote_body (s : jsstring) : jsstring :=
  match s with
  | [] => []
  | c :: rest =>
      if is_high_surrogate c then
        match rest with
        | d :: rest' =>
            if is_low_surrogate d then c :: d :: quote_body rest'
            else UnicodeEscape c ++ quote_body rest
        | [] => UnicodeEscape c
        end
      else if is_low_surrogate c then UnicodeEscape c ++ quote_body rest
      else quote_code_unit c ++ quote_body rest
  end.

Definition QuoteJSONString (s : jsstring) : jsstring :=
  quotation_mark :: quote_body s ++ [quotation_mark].

Fixpoint JSON_stringify (v : json) : jsstring :=
  match v with
  | JString s => QuoteJSONString s
  | JArray elements =>
      lit "[" ++
      (fix items (l : list json) : jsstring :=
         match l with
         | [] => []
         | [x] => JSON_stringify x
         | x :: l' => JSON_stringify x ++ lit "," ++ items l'
         end) elements
      ++ lit "]"
  | JObject members =>
      lit "{" ++
      (fix fields (l : list (jsstring * json)) : jsstring :=
         match l with
         | [] => []
         | [(k, x)] => QuoteJSONString k ++ lit ":" ++ JSON_stringify x
         | (k, x) :: l' =>
             QuoteJSONString k ++ lit ":" ++ JSON_stringify x
             ++ lit "," ++ fields l'
         end) members
      ++ lit "}"
  end.

(** *** [String.prototype.replace] with a global literal pattern *)

Definition dollar : Z := 36.

(** [GetSubstitution] for a match without capture groups: [$$], [$&],
    [$`] and [$'] are expanded, every other code unit is copied. *)
Fixpoint GetSubstitution (matched before after template : jsstring)
  : jsstring :=
  match template with
  | [] => []
  | c :: t =>
      if c =? dollar then
        match t with
        | d :: t' =>
            if d =? dollar then
              dollar :: GetSubstitution matched before after t'
            else if d =? 38 then
              matched ++ GetSubstitution matched before after t'
            else if d =? 96 then
              before ++ GetSubstitution matched before after t'
            else if d =? 39 then
              after ++ GetSubstitution matched before after t'
            else dollar :: GetSubstitution matched before after t
        | [] => [dollar]
        end
      else c :: GetSubstitution matched before after t
  end.

Fixpoint starts_with (pattern s : jsstring) : bool :=
  match pattern, s with
  | [], _ => true
  | p :: pattern', c :: s' => (p =? c) && starts_with pattern' s'
  | _ :: _, [] => false
  end.

(** The scan of [RegExp.prototype[Symbol.replace]] for a non-empty literal
    pattern with the [g] flag: matches are found left to right in the
    original string and never overlap. [skip] counts the code units of the
    current match that are still to be passed over, [before] is the part of
    the original string to the left of the position. *)
Fixpoint replace_scan (pattern replacement : jsstring) (skip : nat)
  (before s : jsstring) : jsstring :=
  match s with
  | [] => []
  | c :: s' =>
      match skip with
      | S k => replace_scan pattern replacement k (before ++ [c]) s'
      | O =>
          if starts_with pattern s then
            GetSubstitution pattern before (drop (length pattern) s)
              replacement
            ++ replace_scan pattern replacement (length pattern - 1)
                 (before ++ [c]) s'
          else c :: replace_scan pattern replacement O (before ++ [c]) s'
      end
  end.

Definition replace_global (pattern replacement s : jsstring) : jsstring :=
  replace_scan pattern replacement O [] s.

(** Plain substitution of every occurrence of [pattern], the replacement
    being copied as it is: the reading of "the name is substituted". *)
Fixpoint substitute_scan (pattern replacement : jsstring) (skip : nat)
  (s : jsstring) : jsstring :=
  match s with
  | [] => []
  | c :: s' =>
      match skip with
      | S k => substitute_scan pattern replacement k s'
      | O =>
          if starts_with pattern s then
            replacement
            ++ substitute_scan pattern replacement (length pattern - 1) s'
          else c :: substitute_scan pattern replacement O s'
      end
  end.

End JS.

(** ** The sharp image pipeline *)

Module Sharp.

(** The input formats of the model: JPEG and PNG pictures. *)
Inductive ImageFormat := jpeg_format | png_format.

(** A decoded picture is represented by its pixel dimensions. *)
Record Image := { width : Z; height : Z }.

(** The contents of a [Buffer]: either the encoding of a picture (its
    container format, the encoder quality and the picture), or other bytes,
    which sharp cannot decode. *)
Inductive Buffer :=
| Encoded (format : ImageFormat) (quality : Z) (img : Image)
| Bytes (bytes : list Byte.byte).

(** The [fit] option of [resize]. *)
Inductive Fit := cover | contain | fill | inside | outside.

Record ResizeOptions := { opt_width : Z; opt_height : Z; opt_fit : Fit }.

(** [round(a / b)] for positive operands. *)
Definition round_div (a b : Z) : Z := (2 * a + b) / (2 * b).

(** Output dimensions of the resize stage, applied to the picture as it
    was loaded, when both target dimensions are given and
    [withoutEnlargement] / [withoutReduction] keep their default [false].
    [cover], [contain] and [fill] produce exactly the target box. [inside]
    scales by the larger of the two shrink factors (the picture fits in the
    box), [outside] by the smaller one (the picture covers the box). The
    quotients are taken exactly and rounded to the nearest pixel. *)
Definition resize_dimensions (o : ResizeOptions) (i : Image) : Image :=
  let tw := opt_width o in
  let th := opt_height o in
  (* xfactor < yfactor, with xfactor = width / tw and yfactor = height / th *)
  let x_lt_y := width i * th <? height i * tw in
  let y_lt_x := height i * tw <? width i * th in
  match opt_fit o with
  | cover | contain | fill => {| width := tw; height := th |}
  | inside =>
      if y_lt_x
      then {| width := tw; height := round_div (height i * tw) (width i) |}
      else {| width := round_div (width i * th) (height i); height := th |}
  | outside =>
      if x_lt_y
      then {| width := tw; height := round_div (height i * tw) (width i) |}
      else {| width := round_div (width i * th) (height i); height := th |}
  end.

(** The default of the [limitInputPixels] option: inputs with more pixels
    are rejected. *)
Definition limitInputPixels : Z := 268402689.

(** The longest side a JPEG can have: a larger output is rejected
    ("Processed image is too large for the JPEG format"). *)
Definition jpeg_max_side : Z := 65535.

(** The integer part of the shrink factor common to both axes, as
    [ResolveShrink] leaves it: the smaller of the two factors when the
    picture is to cover the box, the larger when it is to fit in it. *)
Definition common_shrink (o : ResizeOptions) (i : Image) : Z :=
  let h := width i / opt_width o in
  let v := height i / opt_height o in
  match opt_fit o with
  | cover | outside | fill => Z.min h v
  | contain | inside => Z.max h v
  end.

(** The shrink-on-load factor of a JPEG input ([fastShrinkOnLoad] keeps its
    default [true]): the largest of 8, 4 and 2 that the shrink factor
    reaches, halved when the integer part of the shrink factor is that very
    number. *)
Definition jpegShrinkOnLoad (o : ResizeOptions) (i : Image) : Z :=
  let shrink := common_shrink o i in
  let factor :=
    if 8 <=? shrink then 8
    else if 4 <=? shrink then 4
    else if 2 <=? shrink then 2
    else 1 in
  if (1 <? factor) && (shrink =? factor) then factor / 2 else factor.

(** The picture the resize stage receives: a PNG as it is, a JPEG shrunk on
    load by the integer factor, its sides rounded down. *)
Definition load (format : ImageFormat) (o : ResizeOptions) (i : Image)
  : Image :=
  match format with
  | png_format => i
  | jpeg_format =>
      let factor := jpegShrinkOnLoad o i in
      {| width := width i / factor; height := height i / factor |}
  end.

(** [sharp(buffer).resize(options).jpeg({ quality }).toBuffer()]; [None] is
    a rejection: the input is not a picture (no picture has an empty side),
    it exceeds the pixel limit, or the output is too large for a JPEG. *)
Definition resize_to_jpeg (o : ResizeOptions) (quality : Z) (b : Buffer)
  : option Buffer :=
  match b with
  | Encoded format _ img =>
      if (width img <=? 0) || (height img <=? 0)
         || (limitInputPixels <? width img * height img)
      then None
      else
        let out := resize_dimensions o (load format o img) in
        if (jpeg_max_side <? width out) || (jpeg_max_side <? height out)
        then None
        else Some (Encoded jpeg_format quality out)
  | Bytes _ => None
  end.

Definition dimensions (b : Buffer) : option Image :=
  match b with
  | Encoded _ _ img => Some img
  | Bytes _ => None
  end.

End Sharp.

(** ** The storage service *)

Module Storage.
Import JS Sharp.

Inductive UploadType := pictures | previews | resumes.

Definition UploadType_string (type : UploadType) : jsstring :=
  match type with
  | pictures => lit "pictures"
  | previews => lit "previews"
  | resumes => lit "resumes"
  end.

Definition PUBLIC_ACCESS_POLICY : json :=
  JObject
    [ (lit "Version", JString (lit "2012-10-17"));
      (lit "Statement",
        JArray
          [ JObject
              [ (lit "Sid", JString (lit "PublicAccess"));
                (lit "Effect", JString (lit "Allow"));
                (lit "Action", JArray [JString (lit "s3:GetObject")]);
                (lit "Principal",
                  JObject [(lit "AWS", JArray [JString (lit "*")])]);
                (lit "Resource",
                  JArray
                    [ JString (lit "arn:aws:s3:::{{bucketName}}/*/pictures/*");
                      JString (lit "arn:aws:s3:::{{bucketName}}/*/previews/*");
                      JString (lit "arn:aws:s3:::{{bucketName}}/*/resumes/*")
                    ]) ] ]) ].

(** An error raised by the object-store client, with the code it carries
    ([NoSuchKey], [NoSuchBucket], [ECONNREFUSED], ...). *)
Record S3Error := { code : jsstring }.

(** The values the service can throw. [InternalServerErrorException] is built
    either from a message or, in [onModuleInit], from the caught error. *)
Inductive JsError :=
| StoreError (e : S3Error)
| SharpError
| URIError
| InternalServerErrorException (message : jsstring)
| InternalServerErrorExceptionOf (error : JsError).

Definition is_internal_server_error (e : JsError) : bool :=
  match e with
  | InternalServerErrorException _ | InternalServerErrorExceptionOf _ => true
  | _ => false
  end.

(** The values read with [configService.getOrThrow]; the configuration schema
    makes the three keys mandatory. *)
Record Config := {
  STORAGE_BUCKET : jsstring;
  STORAGE_SKIP_BUCKET_CHECK : bool;
  STORAGE_URL : jsstring
}.

Definition ItemBucketMetadata : Type := list (jsstring * jsstring).

Record BucketItem := { name : jsstring }.

(** What a consumer of the stream returned by [listObjectsV2] observes: the
    items, then the end of the stream or an error. *)
Record ObjectStream := { items : list BucketItem; failure : option S3Error }.

Inductive Result (A : Type) :=
| Ok (a : A)
| Err (e : S3Error).
Arguments Ok {A} a.
Arguments Err {A} e.

(** The methods of [MinioClient] the service calls, as transitions of a store
    of type [S]. [statObject] returns a value that the service only tests for
    truthiness: [true] for an item stat. *)
Class MinioClient (S : Type) := {
  client_bucketExists : jsstring -> S -> Result bool * S;
  client_makeBucket : jsstring -> S -> Result unit * S;
  client_setBucketPolicy : jsstring -> jsstring -> S -> Result unit * S;
  client_putObject :
    jsstring -> jsstring -> Buffer -> ItemBucketMetadata -> S -> Result unit * S;
  client_statObject : jsstring -> jsstring -> S -> Result bool * S;
  client_removeObject : jsstring -> jsstring -> S -> Result unit * S;
  client_listObjectsV2 : jsstring -> jsstring -> bool -> S -> ObjectStream * S;
  client_removeObjects : jsstring -> list jsstring -> S -> Result unit * S
}.

(** The calls made on the client, in order. *)
Inductive Call :=
| CallBucketExists (bucketName : jsstring)
| CallMakeBucket (bucketName : jsstring)
| CallSetBucketPolicy (bucketName policy : jsstring)
| CallPutObject (bucketName objectName : jsstring) (buffer : Buffer)
    (metadata : ItemBucketMetadata)
| CallStatObject (bucketName objectName : jsstring)
| CallRemoveObject (bucketName objectName : jsstring)
| CallListObjectsV2 (bucketName prefix : jsstring) (recursive : bool)
| CallRemoveObjects (bucketName : jsstring) (objectsList : list jsstring).

Inductive LogLevel := LOG | WARN | ERROR.

Record LogLine := {
  level : LogLevel;
  text : jsstring;
  detail : option JsError
}.

Inductive Outcome (A : Type) :=
| Return (a : A)
| Throw (e : JsError).
Arguments Return {A} a.
Arguments Throw {A} e.

Section Service.
Context {S : Type} `{MinioClient S}.

(** The state an asynchronous method runs in: the store behind the client,
    the calls made so far and the lines logged so far. *)
Record World := { store : S; calls : list Call; logs : list LogLine }.

Definition M (A : Type) : Type := World -> Outcome A * World.

Definition ret {A} (a : A) : M A := fun w => (Return a, w).

Definition throw {A} (e : JsError) : M A := fun w => (Throw e, w).

Definition bind {A B} (m : M A) (k : A -> M B) : M B :=
  fun w =>
    match m w with
    | (Return a, w') => k a w'
    | (Throw e, w') => (Throw e, w')
    end.

(** [try { body } catch (error) { handler }] *)
Definition try_catch {A} (body : M A) (handler : JsError -> M A) : M A :=
  fun w =>
    match body w with
    | (Return a, w') => (Return a, w')
    | (Throw e, w') => handler e w'
    end.

#[local] Instance M_ret : MRet M := @ret.
#[local] Instance M_bind : MBind M := fun A B k m => bind m k.

Definition logger (l : LogLevel) (message : jsstring)
  (error : option JsError) : M unit :=
  fun w =>
    (Return tt,
     {| store := store w; calls := calls w;
        logs := logs w ++ [ {| level := l; text := message;
                               detail := error |} ] |}).

Definition logger_log (message : jsstring) : M unit := logger LOG message None.
Definition logger_warn (message : jsstring) : M unit := logger WARN message None.
Definition logger_error (message : jsstring) (error : JsError) : M unit :=
  logger ERROR message (Some error).

(** [await this.client.method(...)]: the call is recorded, the store moves,
    and a rejection is thrown as the client's own error. *)
Definition await {A} (c : Call) (method : S -> Result A * S) : M A :=
  fun w =>
    let (r, s') := method (store w) in
    let w' := {| store := s'; calls := calls w ++ [c]; logs := logs w |} in
    match r with
    | Ok a => (Return a, w')
    | Err e => (Throw (StoreError e), w')
    end.

Definition bool_string (b : bool) : jsstring :=
  if b then lit "true" else lit "false".

Variable config : Config.

(** [this.bucketName], assigned once by [onModuleInit] before any request is
    served. *)
Definition this_bucketName : jsstring := STORAGE_BUCKET config.

(** The local constant [bucketPolicy] of [onModuleInit]. The regular
    expression [/{{bucketName}}/g] has no quantifier or group: it matches
    the text [{{bucketName}}] itself, everywhere. *)
Definition bucketPolicy : jsstring :=
  replace_global (lit "{{bucketName}}") this_bucketName
    (JSON_stringify PUBLIC_ACCESS_POLICY).

Definition onModuleInit : M unit :=
  let skipBucketCheck := STORAGE_SKIP_BUCKET_CHECK config in
  if skipBucketCheck then
    logger_warn
      (lit "Skipping the verification of whether the storage bucket exists.");;
    logger_warn
      (lit "Make sure that the following paths are publicly accessible: `/{pictures,previews,resumes}/*`");;
    ret tt
  else
    try_catch
      (logger_log
         (lit "Checking if bucket " ++ this_bucketName ++ lit " exists...");;
       bucketExists ← await (CallBucketExists this_bucketName)
                         (client_bucketExists this_bucketName);
       if (bucketExists : bool) then
         logger_log (lit "Bucket " ++ this_bucketName ++ lit " already exists.");;
         logger_log (lit "Successfully connected to the storage service.")
       else
         logger_log
           (lit "Bucket " ++ this_bucketName
            ++ lit " does not exist. Creating it...");;
         try_catch
           (await (CallMakeBucket this_bucketName)
              (client_makeBucket this_bucketName);;
            logger_log
              (lit "Bucket " ++ this_bucketName ++ lit " created successfully."))
           (fun error =>
              logger_error (lit "Error creating the storage bucket:") error;;
              throw (InternalServerErrorException
                       (lit "There was an error while creating the storage bucket.")));;
         try_catch
           (await (CallSetBucketPolicy this_bucketName bucketPolicy)
              (client_setBucketPolicy this_bucketName bucketPolicy);;
            logger_log
              (lit "Policy for bucket " ++ this_bucketName
               ++ lit " applied successfully."))
           (fun error =>
              logger_error
                (lit "Error applying the policy to the storage bucket:") error;;
              throw (InternalServerErrorException
                       (lit "There was an error while applying the policy to the storage bucket.")));;
         logger_log
           (lit "A new storage bucket has been created and the policy has been applied successfully."))
      (fun error =>
         logger_error (lit "Error checking the storage bucket:") error;;
         throw (InternalServerErrorExceptionOf error)).

Definition bucketExists : M unit :=
  try_catch
    (exists_ ← await (CallBucketExists this_bucketName)
                  (client_bucketExists this_bucketName);
     logger_log
       (lit "Bucket " ++ this_bucketName ++ lit " exists: "
        ++ bool_string exists_);;
     if negb (exists_ : bool) then
       throw (InternalServerErrorException
                (lit "There was an error while checking if the storage bucket exists."))
     else ret tt)
    (fun error =>
       logger_error (lit "Error checking if bucket exists:") error;;
       throw error).

(** [encodeURIComponent] as the service calls it: outside any [try]. *)
Definition encodeURIComponent_or_throw (s : jsstring) : M jsstring :=
  match encodeURIComponent s with
  | Some e => ret e
  | None => throw URIError
  end.

Definition sharp_resize_jpeg (buffer : Buffer) : M Buffer :=
  match
    resize_to_jpeg
      {| opt_width := 600; opt_height := 600; opt_fit := outside |} 80 buffer
  with
  | Some b => ret b
  | None => throw SharpError
  end.

(** The [filename] parameter defaults to [createId()]; the default is
    resolved at the call site, so the embedding takes the name. *)
Definition uploadObject (userId : jsstring) (type : UploadType)
  (buffer : Buffer) (filename : jsstring) : M jsstring :=
  let extension :=
    match type with resumes => lit "pdf" | _ => lit "jpg" end in
  let storageUrl := STORAGE_URL config in
  encodedFilename ← encodeURIComponent_or_throw filename;
  let filepath :=
    userId ++ lit "/" ++ UploadType_string type ++ lit "/"
    ++ encodedFilename ++ lit "." ++ extension in
  let url := storageUrl ++ lit "/" ++ filepath in
  let metadata : ItemBucketMetadata :=
    if strict_equal extension (lit "jpg")
    then [(lit "Content-Type", lit "image/jpeg")]
    else
      [ (lit "Content-Type", lit "application/pdf");
        (lit "Content-Disposition",
          lit "attachment; filename*=UTF-8''" ++ encodedFilename ++ lit "."
          ++ extension) ] in
  try_catch
    (buffer' ← (if strict_equal extension (lit "jpg")
                then sharp_resize_jpeg buffer else ret buffer);
     logger_log (lit "Uploading object to Minio: " ++ filepath);;
     await (CallPutObject this_bucketName filepath buffer' metadata)
       (client_putObject this_bucketName filepath buffer' metadata);;
     logger_log (lit "Successfully uploaded object to Minio: " ++ filepath);;
     objectExists ← await (CallStatObject this_bucketName filepath)
                       (client_statObject this_bucketName filepath);
     (if (objectExists : bool) then
        logger_log (lit "Object exists in Minio: " ++ filepath)
      else
        logger_warn (lit "Object does not exist in Minio: " ++ filepath));;
     ret url)
    (fun error =>
       logger_error (lit "Error uploading object to Minio:") error;;
       throw (InternalServerErrorException
                (lit "There was an error while uploading the file."))).

Definition deleteObject (userId : jsstring) (type : UploadType)
  (filename : jsstring) : M unit :=
  let extension :=
    match type with resumes => lit "pdf" | _ => lit "jpg" end in
  encodedFilename ← encodeURIComponent_or_throw filename;
  let path :=
    userId ++ lit "/" ++ UploadType_string type ++ lit "/"
    ++ encodedFilename ++ lit "." ++ extension in
  try_catch
    (logger_log (lit "Deleting object from Minio: " ++ path);;
     await (CallRemoveObject this_bucketName path)
       (client_removeObject this_bucketName path);;
     logger_log (lit "Successfully deleted object from Minio: " ++ path))
    (fun error =>
       logger_error
         (lit "Error deleting the document at the specified path: " ++ path)
         error;;
       throw (InternalServerErrorException
                (lit "There was an error while deleting the document at the specified path: "
                 ++ path ++ lit "."))).

(** First half of [deleteFolder]: the stream is opened and drained with
    [for await], outside any [try]; an error of the stream is thrown as it
    is. *)
Definition deleteFolder_list (prefix : jsstring) : M (list jsstring) :=
  fun w =>
    let (objectsStream, s') :=
      client_listObjectsV2 this_bucketName prefix true (store w) in
    let w' := {| store := s';
                 calls := calls w ++ [CallListObjectsV2 this_bucketName prefix true];
                 logs := logs w |} in
    let objectsList :=
      fold_left (fun acc object => acc ++ [name object])
        (items objectsStream) [] in
    match failure objectsStream with
    | None => (Return objectsList, w')
    | Some e => (Throw (StoreError e), w')
    end.

(** Second half of [deleteFolder]: the bulk removal of the collected
    names. *)
Definition deleteFolder_remove (prefix : jsstring)
  (objectsList : list jsstring) : M unit :=
  try_catch
    (logger_log (lit "Deleting folder from Minio with prefix: " ++ prefix);;
     await (CallRemoveObjects this_bucketName objectsList)
       (client_removeObjects this_bucketName objectsList);;
     logger_log
       (lit "Successfully deleted folder from Minio with prefix: " ++ prefix))
    (fun error =>
       logger_error
         (lit "Error deleting the folder at the specified path: "
          ++ this_bucketName ++ lit "/" ++ prefix) error;;
       throw (InternalServerErrorException
                (lit "There was an error while deleting the folder at the specified path: "
                 ++ this_bucketName ++ lit "/" ++ prefix ++ lit "."))).

Definition deleteFolder (prefix : jsstring) : M unit :=
  objectsList ← deleteFolder_list prefix;
  deleteFolder_remove prefix objectsList.

End Service.

Arguments World S : clear implicits.
Arguments M S A : clear implicits.

End Storage.

(** ** A reference object store

    An in-memory store with the behaviour of an S3-compatible server as far
    as the service can observe it: buckets of named objects, removal of a
    missing key succeeds, [statObject] of a missing key is rejected. The
    [faults] script decides, call by call, whether the call is rejected
    before it reaches the store (a network failure, a denied request). *)

Module MemStore.
Import JS Sharp Storage.

Record StoredObject := { body : Buffer; metadata : ItemBucketMetadata }.

Record Bucket := {
  objects : gmap jsstring StoredObject;
  policy : option jsstring
}.

Record State := {
  buckets : gmap jsstring Bucket;
  faults : list (option S3Error)
}.

Definition NoSuchBucket : S3Error := {| code := lit "NoSuchBucket" |}.
Definition NotFound : S3Error := {| code := lit "NotFound" |}.
Definition BucketAlreadyOwnedByYou : S3Error :=
  {| code := lit "BucketAlreadyOwnedByYou" |}.

(** Consumes the next entry of the fault script; a scripted fault rejects the
    call without touching the buckets. *)
Definition guarded {A} (run : gmap jsstring Bucket -> Result A * gmap jsstring Bucket)
  (st : State) : Result A * State :=
  match faults st with
  | Some e :: fs => (Err e, {| buckets := buckets st; faults := fs |})
  | None :: fs =>
      let (r, b) := run (buckets st) in (r, {| buckets := b; faults := fs |})
  | [] =>
      let (r, b) := run (buckets st) in (r, {| buckets := b; faults := [] |})
  end.

Definition bucketExists (bucketName : jsstring) : State -> Result bool * State :=
  guarded (fun bs => (Ok (bool_decide (is_Some (bs !! bucketName))), bs)).

Definition makeBucket (bucketName : jsstring) : State -> Result unit * State :=
  guarded (fun bs =>
    match bs !! bucketName with
    | Some _ => (Err BucketAlreadyOwnedByYou, bs)
    | None =>
        (Ok tt, <[bucketName := {| objects := ∅; policy := None |}]> bs)
    end).

Definition setBucketPolicy (bucketName bucketPolicy : jsstring)
  : State -> Result unit * State :=
  guarded (fun bs =>
    match bs !! bucketName with
    | Some b =>
        (Ok tt,
         <[bucketName := {| objects := objects b;
                            policy := Some bucketPolicy |}]> bs)
    | None => (Err NoSuchBucket, bs)
    end).

Definition putObject (bucketName objectName : jsstring) (buffer : Buffer)
  (meta : ItemBucketMetadata) : State -> Result unit * State :=
  guarded (fun bs =>
    match bs !! bucketName with
    | Some b =>
        (Ok tt,
         <[bucketName :=
             {| objects := <[objectName := {| body := buffer; metadata := meta |}]>
                             (objects b);
                policy := policy b |}]> bs)
    | None => (Err NoSuchBucket, bs)
    end).

Definition statObject (bucketName objectName : jsstring)
  : State -> Result bool * State :=
  guarded (fun bs =>
    match bs !! bucketName with
    | Some b =>
        match objects b !! objectName with
        | Some _ => (Ok true, bs)
        | None => (Err NotFound, bs)
        end
    | None => (Err NoSuchBucket, bs)
    end).

Definition removeObject (bucketName objectName : jsstring)
  : State -> Result unit * State :=
  guarded (fun bs =>
    match bs !! bucketName with
    | Some b =>
        (Ok tt,
         <[bucketName := {| objects := delete objectName (objects b);
                            policy := policy b |}]> bs)
    | None => (Err NoSuchBucket, bs)
    end).

(** The names under [prefix]; without [recursive] only those that have no
    further ["/"] after the prefix are items of the listing. *)
Definition listed (prefix : jsstring) (recursive : bool) (objectName : jsstring)
  : bool :=
  starts_with prefix objectName
  && (recursive
      || negb (bool_decide (47 ∈ drop (length prefix) objectName))).

Definition list_names (prefix : jsstring) (recursive : bool) (b : Bucket)
  : list jsstring :=
  List.filter (listed prefix recursive) (map fst (map_to_list (objects b))).

Definition listObjectsV2 (bucketName prefix : jsstring) (recursive : bool)
  (st : State) : ObjectStream * State :=
  match faults st with
  | Some e :: fs =>
      ({| items := []; failure := Some e |},
       {| buckets := buckets st; faults := fs |})
  | fs =>
      (match buckets st !! bucketName with
       | Some b =>
           {| items := map (fun n => {| name := n |}) (list_names prefix recursive b);
              failure := None |}
       | None => {| items := []; failure := Some NoSuchBucket |}
       end,
       {| buckets := buckets st; faults := tail fs |})
  end.

Definition removeObjects (bucketName : jsstring) (objectsList : list jsstring)
  : State -> Result unit * State :=
  guarded (fun bs =>
    match bs !! bucketName with
    | Some b =>
        (Ok tt,
         <[bucketName :=
             {| objects := foldr delete (objects b) objectsList;
                policy := policy b |}]> bs)
    | None => (Err NoSuchBucket, bs)
    end).

#[global] Instance client : MinioClient State := {|
  client_bucketExists := bucketExists;
  client_makeBucket := makeBucket;
  client_setBucketPolicy := setBucketPolicy;
  client_putObject := putObject;
  client_statObject := statObject;
  client_removeObject := removeObject;
  client_listObjectsV2 := listObjectsV2;
  client_removeObjects := removeObjects
|}.

(** A store that rejects no further call. *)
Definition settled (bs : gmap jsstring Bucket) : State :=
  {| buckets := bs; faults := [] |}.

(** A world around a store in which nothing has been called or logged. *)
Definition fresh (st : State) : World State :=
  {| store := st; calls := []; logs := [] |}.

(** The object stored under a name, if any. *)
Definition object_at (bucketName objectName : jsstring) (st : State)
  : option StoredObject :=
  match buckets st !! bucketName with
  | Some b => objects b !! objectName
  | None => None
  end.

End MemStore.

(** ** The contract, in the words of the specification *)

Module Spec.
Import JS Sharp Storage.

(** [pdf] exactly for documents, [jpg] otherwise. *)
Definition extension (type : UploadType) : jsstring :=
  match type with
  | resumes => lit "pdf"
  | pictures | previews => lit "jpg"
  end.

(** [{userId}/{type}/{encodedName}.{ext}] *)
Definition object_path (userId : jsstring) (type : UploadType)
  (encodedName : jsstring) : jsstring :=
  userId ++ lit "/" ++ UploadType_string type ++ lit "/" ++ encodedName
  ++ lit "." ++ extension type.

(** The public URL: the configured base, a slash, the path. *)
Definition public_url (config : Config) (path : jsstring) : jsstring :=
  STORAGE_URL config ++ lit "/" ++ path.

(** The public-read policy of a bucket: anonymous [s3:GetObject] on the three
    category prefixes of that bucket. *)
Definition policy_document (bucketName : jsstring) : json :=
  JObject
    [ (lit "Version", JString (lit "2012-10-17"));
      (lit "Statement",
        JArray
          [ JObject
              [ (lit "Sid", JString (lit "PublicAccess"));
                (lit "Effect", JString (lit "Allow"));
                (lit "Action", JArray [JString (lit "s3:GetObject")]);
                (lit "Principal",
                  JObject [(lit "AWS", JArray [JString (lit "*")])]);
                (lit "Resource",
                  JArray
                    [ JString (lit "arn:aws:s3:::" ++ bucketName
                               ++ lit "/*/pictures/*");
                      JString (lit "arn:aws:s3:::" ++ bucketName
                               ++ lit "/*/previews/*");
                      JString (lit "arn:aws:s3:::" ++ bucketName
                               ++ lit "/*/resumes/*")
                    ]) ] ]) ].

(** Code units that are copied as they are both by [JSON.stringify] and by
    the replacement template of [replace]: no control character, quotation
    mark, backslash, dollar sign or surrogate. Bucket names (lower-case
    letters, digits, dots and hyphens) consist of such units. *)
Definition plain_code_unit (u : Z) : bool :=
  (32 <=? u) && (u <? 55296) && negb (u =? 34) && negb (u =? 92)
  && negb (u =? 36).

Definition upload_failed : JsError :=
  InternalServerErrorException
    (lit "There was an error while uploading the file.").

Definition delete_failed (path : jsstring) : JsError :=
  InternalServerErrorException
    (lit "There was an error while deleting the document at the specified path: "
     ++ path ++ lit ".").

Definition delete_folder_failed (bucketName prefix : jsstring) : JsError :=
  InternalServerErrorException
    (lit "There was an error while deleting the folder at the specified path: "
     ++ bucketName ++ lit "/" ++ prefix ++ lit ".").

Definition pdf_metadata (encodedName : jsstring) : ItemBucketMetadata :=
  [ (lit "Content-Type", lit "application/pdf");
    (lit "Content-Disposition",
      lit "attachment; filename*=UTF-8''" ++ encodedName ++ lit ".pdf") ].

Definition jpeg_metadata : ItemBucketMetadata :=
  [(lit "Content-Type", lit "image/jpeg")].

Definition metadata_of (type : UploadType) (encodedName : jsstring)
  : ItemBucketMetadata :=
  match type with
  | resumes => pdf_metadata encodedName
  | pictures | previews => jpeg_metadata
  end.

(** The options [uploadObject] passes to [resize], and the bytes it hands to
    [putObject]: the input for a document, the output of the sharp pipeline
    for a picture ([None] when sharp rejects the input). *)
Definition resize_options : ResizeOptions :=
  {| opt_width := 600; opt_height := 600; opt_fit := outside |}.

Definition normalized (type : UploadType) (buffer : Buffer) : option Buffer :=
  match type with
  | resumes => Some buffer
  | pictures | previews => resize_to_jpeg resize_options 80 buffer
  end.

(** The box the specification asks stored pictures to fit in. *)
Definition fits_box (bound_width bound_height : Z) (b : Buffer) : Prop :=
  match dimensions b with
  | Some img => width img <= bound_width /\ height img <= bound_height
  | None => False
  end.

End Spec.

(** ** Concrete configurations, stores and inputs *)

Module Examples.
Import JS Sharp Storage.

Definition config : Config :=
  {| STORAGE_BUCKET := lit "default";
     STORAGE_SKIP_BUCKET_CHECK := false;
     STORAGE_URL := lit "http://resaipro.com/default" |}.

Definition config_skip : Config :=
  {| STORAGE_BUCKET := lit "default";
     STORAGE_SKIP_BUCKET_CHECK := true;
     STORAGE_URL := lit "http://resaipro.com/default" |}.

Definition empty_bucket : MemStore.Bucket :=
  {| MemStore.objects := ∅; MemStore.policy := None |}.

(** No bucket yet. *)
Definition blank : MemStore.State :=
  {| MemStore.buckets := ∅; MemStore.faults := [] |}.

(** The bucket exists and is empty. *)
Definition provisioned : MemStore.State :=
  {| MemStore.buckets := {[ lit "default" := empty_bucket ]};
     MemStore.faults := [] |}.

Definition ECONNREFUSED : S3Error := {| code := lit "ECONNREFUSED" |}.

(** The next call is rejected. *)
Definition unreachable : MemStore.State :=
  {| MemStore.buckets := {[ lit "default" := empty_bucket ]};
     MemStore.faults := [Some ECONNREFUSED] |}.

(** The next call goes through, the one after it is rejected. *)
Definition flaky : MemStore.State :=
  {| MemStore.buckets := {[ lit "default" := empty_bucket ]};
     MemStore.faults := [None; Some ECONNREFUSED] |}.

Definition jpeg_2000x1000 : Buffer :=
  Encoded jpeg_format 90 {| width := 2000; height := 1000 |}.

Definition jpeg_300x200 : Buffer :=
  Encoded jpeg_format 90 {| width := 300; height := 200 |}.

Definition pdf_bytes : Buffer :=
  Bytes [Byte.x25; Byte.x50; Byte.x44; Byte.x46; Byte.x2d].

(** A store holding two objects of user [u1] and one of user [u2]. *)
Definition populated : MemStore.State :=
  {| MemStore.buckets :=
       {[ lit "default" :=
            {| MemStore.objects :=
                 {[ lit "u1/pictures/avatar.jpg" :=
                      {| MemStore.body := jpeg_300x200;
                         MemStore.metadata := [(lit "Content-Type", lit "image/jpeg")] |};
                    lit "u1/resumes/cv.pdf" :=
                      {| MemStore.body := pdf_bytes;
                         MemStore.metadata := Spec.pdf_metadata (lit "cv") |};
                    lit "u2/resumes/cv.pdf" :=
                      {| MemStore.body := pdf_bytes;
                         MemStore.metadata := Spec.pdf_metadata (lit "cv") |} ]};
               MemStore.policy := None |} ]};
     MemStore.faults := [] |}.

End Examples.


(** ** The client: the print request *)

Module Client.
Import JS.

Record UrlDto := { url : jsstring }.

(** The error a rejected request carries; [message] is [error.message]. *)
Record AxiosError := { message : jsstring }.

Inductive ConsoleLine :=
| console_log (text : jsstring) (data : UrlDto)
| console_error (text : jsstring) (error : AxiosError).

Record Toast := {
  variant : jsstring;
  title : jsstring;
  description : jsstring
}.

Inductive Settled (A : Type) :=
| Resolved (a : A)
| Rejected (error : AxiosError).
Arguments Resolved {A} a.
Arguments Rejected {A} error.

Section Print.
(** The server behind [axios]: a request moves its state and is answered
    with the body of the response or rejected. *)
Context {N : Type}.
Variable axios_get : jsstring -> N -> Settled UrlDto * N.

Record Page := {
  server : N;
  requests : list jsstring;
  console : list ConsoleLine;
  toasts : list Toast
}.

Definition printResume (id : jsstring) (p : Page) : Settled UrlDto * Page :=
  let path := lit "/resume/print/" ++ id in
  let (response, server') := axios_get path (server p) in
  let requested := requests p ++ [path] in
  match response with
  | Resolved data =>
      (Resolved data,
       {| server := server'; requests := requested;
          console := console p
                     ++ [console_log (lit "Print resume response:") data];
          toasts := toasts p |})
  | Rejected error =>
      (Rejected error,
       {| server := server'; requests := requested;
          console := console p
                     ++ [console_error (lit "Error in printResume service:")
                           error];
          toasts := toasts p |})
  end.

(** The [onError] option passed to [useMutation]. *)
Definition onError (error : AxiosError) (p : Page) : Page :=
  {| server := server p; requests := requests p; console := console p;
     toasts := toasts p
               ++ [ {| variant := lit "error";
                       title := lit "Oops, the server returned an error.";
                       description := message error |} ] |}.

(** [mutateAsync] of the mutation built by [usePrintResume]: the mutation
    function runs; when it rejects, [onError] is called and the promise
    rejects with the same error. *)
Definition usePrintResume_printResume (id : jsstring) (p : Page)
  : Settled UrlDto * Page :=
  match printResume id p with
  | (Resolved data, p') => (Resolved data, p')
  | (Rejected error, p') => (Rejected error, onError error p')
  end.

End Print.

Arguments Page N : clear implicits.

End Client.

(** ** Inputs for the further properties *)

Module MoreExamples.
Import JS Sharp Storage.

Definition AccessDenied : S3Error := {| code := lit "AccessDenied" |}.

(** No bucket yet; the first two calls go through, the third is rejected. *)
Definition policy_denied : MemStore.State :=
  {| MemStore.buckets := ∅; MemStore.faults := [None; None; Some AccessDenied] |}.

(** No bucket yet; the first call goes through, the second is rejected. *)
Definition creation_denied : MemStore.State :=
  {| MemStore.buckets := ∅; MemStore.faults := [None; Some AccessDenied] |}.

Definition png_1000x2000 : Buffer :=
  Encoded png_format 100 {| width := 1000; height := 2000 |}.

(** A PNG strip whose resized width, 66000 pixels, no JPEG can have. *)
Definition png_1100x10 : Buffer :=
  Encoded png_format 100 {| width := 1100; height := 10 |}.

(** A print server that knows one resume. *)
Definition print_server (path : jsstring) (hits : nat)
  : Client.Settled Client.UrlDto * nat :=
  if strict_equal path (lit "/resume/print/r1")
  then (Client.Resolved {| Client.url := lit "http://x/r1.pdf" |}, S hits)
  else (Client.Rejected
          {| Client.message := lit "Request failed with status code 404" |},
        S hits).

Definition blank_page : Client.Page nat :=
  {| Client.server := O; Client.requests := []; Client.console := [];
     Client.toasts := [] |}.

End MoreExamples.

(** ** Vocabulary of the further properties *)

Module Observed.
Import JS Sharp Storage.

(** The code units [encodeURIComponent] can produce: unreserved ones and the
    percent sign (the hexadecimal digits of an escape are unreserved). *)
Definition uri_component_unit (u : Z) : Prop :=
  uriUnreserved u = true \/ u = percent.

Definition solidus : Z := 47.

Definition log_line (message : jsstring) : LogLine :=
  {| level := LOG; text := message; detail := None |}.

Definition error_line (message : jsstring) (error : JsError) : LogLine :=
  {| level := ERROR; text := message; detail := Some error |}.

(** What the caller can still read of the client's error in the exception
    it catches: the client's error when it is thrown as it is, and the error
    an [InternalServerErrorException] was constructed from (its
    [getResponse()]); an exception constructed from a message carries
    nothing of it. *)
Fixpoint underlying (error : JsError) : option S3Error :=
  match error with
  | StoreError e => Some e
  | InternalServerErrorExceptionOf cause => underlying cause
  | InternalServerErrorException _ | SharpError | URIError => None
  end.

Definition is_console_error (l : Client.ConsoleLine) : bool :=
  match l with
  | Client.console_error _ _ => true
  | Client.console_log _ _ => false
  end.

(** A page on which every request left one console line and every failed
    request one toast. *)
Definition consistent_page {N : Type} (p : Client.Page N) : Prop :=
  length (Client.requests p) = length (Client.console p)
  /\ length (Client.toasts p)
     = length (List.filter is_console_error (Client.console p)).

End Observed.

(** * Properties *)

Import JS Sharp Storage.

(** ** Tactics *)

Ltac bool_hyps :=
  repeat match goal with
  | H : _ && _ = true |- _ => apply andb_prop in H; destruct H
  | H : _ || _ = true |- _ => apply orb_prop in H; destruct H
  | H : _ && _ = false |- _ => apply andb_false_iff in H
  | H : _ || _ = false |- _ => apply orb_false_iff in H; destruct H
  | H : negb _ = true |- _ => apply negb_true_iff in H
  | H : (_ <=? _) = true |- _ => apply Z.leb_le in H
  | H : (_ <=? _) = false |- _ => apply Z.leb_gt in H
  | H : (_ <? _) = true |- _ => apply Z.ltb_lt in H
  | H : (_ <? _) = false |- _ => apply Z.ltb_ge in H
  | H : (_ =? _) = true |- _ => apply Z.eqb_eq in H
  | H : (_ =? _) = false |- _ => apply Z.eqb_neq in H
  end.

Ltac zdm := Z.div_mod_to_equations; lia.

Ltac decide_tests :=
  repeat match goal with
  | |- context [?a <? ?b] =>
      first [ replace (a <? b) with true by (symmetry; apply Z.ltb_lt; zdm)
            | replace (a <? b) with false by (symmetry; apply Z.ltb_ge; zdm) ]
  | |- context [?a <=? ?b] =>
      first [ replace (a <=? b) with true by (symmetry; apply Z.leb_le; zdm)
            | replace (a <=? b) with false by (symmetry; apply Z.leb_gt; zdm) ]
  | |- context [?a =? ?b] =>
      first [ replace (a =? b) with true by (symmetry; apply Z.eqb_eq; zdm)
            | replace (a =? b) with false by (symmetry; apply Z.eqb_neq; zdm) ]
  end.

(** ** Percent-encoding round trip *)

Lemma hexval_hexdigit d : 0 <= d < 16 -> hexval (hexdigit d) = Some d.
Proof.
  intros Hd. unfold hexval, hexdigit.
  destruct (d <? 10) eqn:E; bool_hyps.
  - replace ((48 <=? 48 + d) && (48 + d <=? 57)) with true
      by (symmetry; apply andb_true_intro; split; apply Z.leb_le; lia).
    f_equal. lia.
  - replace ((48 <=? 55 + d) && (55 + d <=? 57)) with false
      by (symmetry; apply andb_false_iff; right; apply Z.leb_gt; lia).
    replace ((65 <=? 55 + d) && (55 + d <=? 70)) with true
      by (symmetry; apply andb_true_intro; split; apply Z.leb_le; lia).
    f_equal. lia.
Qed.

Lemma parse_escape_octet b rest :
  0 <= b < 256 -> parse_escape (escape_octet b ++ rest) = Some (b, rest).
Proof.
  intros Hb. unfold escape_octet, parse_escape. cbn [app].
  rewrite Z.eqb_refl.
  rewrite !hexval_hexdigit.
  - do 2 f_equal. Z.div_mod_to_equations. lia.
  - Z.div_mod_to_equations. lia.
  - Z.div_mod_to_equations. lia.
Qed.

Lemma length_escape_octets bs : length (escape_octets bs) = (3 * length bs)%nat.
Proof.
  induction bs as [|b bs IH]; [reflexivity|].
  unfold escape_octets in *. cbn [flat_map escape_octet app length]. lia.
Qed.

Lemma read_continuation_escape bs rest :
  Forall (fun b => 0 <= b < 256) bs ->
  read_continuation (length bs) (escape_octets bs ++ rest) = Some (bs, rest).
Proof.
  induction 1 as [|b bs Hb _ IH]; [reflexivity|].
  cbn [length read_continuation]. unfold escape_octets. cbn [flat_map].
  rewrite <- app_assoc, parse_escape_octet by assumption.
  unfold escape_octets in IH. now rewrite IH.
Qed.


Lemma Decode_literal fuel c rest :
  c <> percent ->
  Decode (S fuel) (c :: rest) = continue_with [c] (Decode fuel rest).
Proof.
  intros Hc. cbn [Decode]. apply Z.eqb_neq in Hc. rewrite Hc. reflexivity.
Qed.

Lemma Decode_ascii_escape fuel b rest :
  0 <= b < 128 ->
  Decode (S fuel) (escape_octet b ++ rest) = continue_with [b] (Decode fuel rest).
Proof.
  intros Hb.
  change (escape_octet b ++ rest)
    with (percent :: hexdigit (b / 16) :: hexdigit (b mod 16) :: rest).
  cbn [Decode]. rewrite Z.eqb_refl.
  change (percent :: hexdigit (b / 16) :: hexdigit (b mod 16) :: rest)
    with (escape_octet b ++ rest).
  rewrite parse_escape_octet by lia.
  unfold leading_ones. decide_tests. reflexivity.
Qed.

Lemma Decode_multibyte_escape fuel b bs rest v :
  0 <= b < 256 -> Forall (fun x => 0 <= x < 256) bs ->
  leading_ones b = S (length bs) -> (0 < length bs <= 3)%nat ->
  utf8_decode (b :: bs) = Some v ->
  Decode (S fuel) (escape_octets (b :: bs) ++ rest)
  = continue_with (UTF16EncodeCodePoint v) (Decode fuel rest).
Proof.
  intros Hb Hbs Hn Hlen Hv.
  unfold escape_octets. cbn [flat_map]. rewrite <- app_assoc.
  change (escape_octet b ++ flat_map escape_octet bs ++ rest)
    with (percent :: hexdigit (b / 16) :: hexdigit (b mod 16)
            :: escape_octets bs ++ rest).
  cbn [Decode]. rewrite Z.eqb_refl.
  change (percent :: hexdigit (b / 16) :: hexdigit (b mod 16)
            :: escape_octets bs ++ rest)
    with (escape_octet b ++ escape_octets bs ++ rest).
  rewrite parse_escape_octet by lia.
  rewrite Hn.
  destruct (length bs) as [|n] eqn:El; [lia|].
  replace (4 <? S (S n))%nat with false by (symmetry; apply Nat.ltb_ge; lia).
  rewrite <- El, read_continuation_escape by assumption.
  rewrite Hv. reflexivity.
Qed.

Lemma utf8_encode_decode cp :
  128 <= cp <= 1114111 -> ~ (55296 <= cp <= 57343) ->
  exists b bs,
    utf8_encode cp = b :: bs /\ 0 <= b < 256 /\
    Forall (fun x => 0 <= x < 256) bs /\
    leading_ones b = S (length bs) /\ (0 < length bs <= 3)%nat /\
    utf8_decode (b :: bs) = Some cp.
Proof.
  intros Hr Hs. unfold utf8_encode.
  destruct (cp <? 128) eqn:E1; bool_hyps; [lia|].
  destruct (cp <? 2048) eqn:E2; [|destruct (cp <? 65536) eqn:E3]; bool_hyps;
    eexists _, _; (split; [reflexivity|]);
    (split; [zdm|]);
    (split; [repeat first [apply Forall_nil_2 | apply Forall_cons_2]; zdm|]);
    (split; [unfold leading_ones; decide_tests; reflexivity|]);
    (split; [cbn; lia|]);
    unfold utf8_decode, is_continuation; decide_tests; cbn [andb negb].
  - f_equal. zdm.
  - replace ((224 + cp `div` 4096 - 224) * 4096 +
             (128 + (cp `div` 64) `mod` 64 - 128) * 64 +
             (128 + cp `mod` 64 - 128)) with cp by zdm.
    destruct (55296 <=? cp) eqn:E4; destruct (cp <=? 57343) eqn:E5;
      bool_hyps; cbn [andb negb]; (reflexivity || lia).
  - f_equal. zdm.
Qed.

Lemma Decode_escaped_code_point fuel cp rest :
  0 <= cp <= 1114111 -> ~ (55296 <= cp <= 57343) ->
  Decode (S fuel) (escape_octets (utf8_encode cp) ++ rest)
  = continue_with (UTF16EncodeCodePoint cp) (Decode fuel rest).
Proof.
  intros Hr Hs. destruct (Z_lt_ge_dec cp 128) as [Hlt|Hge].
  - unfold utf8_encode. replace (cp <? 128) with true by (symmetry; apply Z.ltb_lt; lia).
    unfold escape_octets. cbn [flat_map]. rewrite app_nil_r.
    rewrite Decode_ascii_escape by lia.
    unfold UTF16EncodeCodePoint. now replace (cp <=? 65535) with true by (symmetry; apply Z.leb_le; lia).
  - destruct (utf8_encode_decode cp) as (b & bs & -> & Hb & Hbs & Hn & Hl & Hv); [lia|assumption|].
    now apply Decode_multibyte_escape.
Qed.

Lemma uriUnreserved_not_percent c : uriUnreserved c = true -> c <> percent.
Proof. unfold uriUnreserved, percent. intros H. bool_hyps; lia. Qed.

Lemma UTF16Encode_surrogate_pair c d :
  is_high_surrogate c = true -> is_low_surrogate d = true ->
  UTF16EncodeCodePoint (surrogate_pair_code_point c d) = [c; d].
Proof.
  unfold is_high_surrogate, is_low_surrogate, UTF16EncodeCodePoint,
    surrogate_pair_code_point.
  intros Hc Hd. bool_hyps. decide_tests. f_equal; [|f_equal]; zdm.
Qed.

Lemma Decode_Encode_fuel n : forall s e fuel,
  (length s <= n)%nat -> code_units s -> Encode s = Some e ->
  (length s <= fuel)%nat -> Decode fuel e = Some s.
Proof.
  induction n as [|n IH]; intros s e fuel Hn Hu He Hf.
  - destruct s; [|cbn in Hn; lia]. cbn in He. injection He as <-. now destruct fuel.
  - destruct s as [|c rest]; [cbn in He; injection He as <-; now destruct fuel|].
    destruct fuel as [|fuel]; [cbn in Hf; lia|].
    cbn [length] in Hn, Hf. apply Forall_cons in Hu as [Hc Hrest].
    cbn [Encode] in He.
    destruct (uriUnreserved c) eqn:Eu.
    { destruct (Encode rest) as [r|] eqn:Er; [|discriminate]. injection He as <-.
      rewrite Decode_literal by now apply uriUnreserved_not_percent.
      rewrite (IH rest r fuel) by (assumption || lia). reflexivity. }
    destruct (is_high_surrogate c) eqn:Eh.
    { destruct rest as [|d rest']; [discriminate|].
      destruct (is_low_surrogate d) eqn:El; [|discriminate].
      destruct (Encode rest') as [r|] eqn:Er; [|discriminate]. injection He as <-.
      apply Forall_cons in Hrest as [Hd Hrest']. cbn [length] in Hn, Hf.
      rewrite Decode_escaped_code_point.
      - rewrite (IH rest' r fuel) by (assumption || lia).
        cbn [continue_with]. now rewrite UTF16Encode_surrogate_pair.
      - unfold surrogate_pair_code_point, is_high_surrogate, is_low_surrogate in *.
        bool_hyps. lia.
      - unfold surrogate_pair_code_point, is_high_surrogate, is_low_surrogate in *.
        bool_hyps. lia. }
    destruct (is_low_surrogate c) eqn:El; [discriminate|].
    destruct (Encode rest) as [r|] eqn:Er; [|discriminate]. injection He as <-.
    rewrite Decode_escaped_code_point.
    + rewrite (IH rest r fuel) by (assumption || lia).
      cbn [continue_with]. unfold UTF16EncodeCodePoint, code_unit in *.
      now replace (c <=? 65535) with true by (symmetry; apply Z.leb_le; lia).
    + unfold code_unit in Hc. lia.
    + unfold is_high_surrogate, is_low_surrogate in *. bool_hyps. lia.
Qed.

Lemma Encode_length s e : Encode s = Some e -> (length s <= length e)%nat.
Proof.
  remember (length s) as n eqn:En.
  revert s e En. induction n as [n IH] using lt_wf_ind. intros s e -> He.
  destruct s as [|c rest]; [cbn; lia|]. cbn [Encode] in He.
  destruct (uriUnreserved c).
  { destruct (Encode rest) as [r|] eqn:Er; [|discriminate]. injection He as <-.
    cbn [length]. specialize (IH (length rest) ltac:(cbn; lia) rest r eq_refl Er). lia. }
  destruct (is_high_surrogate c).
  { destruct rest as [|d rest']; [discriminate|].
    destruct (is_low_surrogate d); [|discriminate].
    destruct (Encode rest') as [r|] eqn:Er; [|discriminate]. injection He as <-.
    specialize (IH (length rest') ltac:(cbn; lia) rest' r eq_refl Er).
    rewrite length_app, length_escape_octets. cbn [length].
    assert (1 <= length (utf8_encode (surrogate_pair_code_point c d)))%nat; [|lia].
    unfold utf8_encode. repeat case_match; cbn; lia. }
  destruct (is_low_surrogate c); [discriminate|].
  destruct (Encode rest) as [r|] eqn:Er; [|discriminate]. injection He as <-.
  specialize (IH (length rest) ltac:(cbn; lia) rest r eq_refl Er).
  rewrite length_app, length_escape_octets. cbn [length].
  assert (1 <= length (utf8_encode c))%nat; [|lia].
  unfold utf8_encode. repeat case_match; cbn; lia.
Qed.

Lemma isWellFormed_Encode s : isWellFormed s = true -> is_Some (Encode s).
Proof.
  remember (length s) as n eqn:En.
  revert s En. induction n as [n IH] using lt_wf_ind. intros s -> Hw.
  destruct s as [|c rest]; [by eexists|]. cbn [Encode isWellFormed] in *.
  destruct (is_high_surrogate c) eqn:Eh.
  - destruct rest as [|d rest']; [discriminate|].
    apply andb_prop in Hw as [Hd Hw]. rewrite Hd.
    destruct (IH (length rest') ltac:(cbn; lia) rest' eq_refl Hw) as [r ->].
    destruct (uriUnreserved c) eqn:Eu; [|by eexists].
    unfold uriUnreserved, is_high_surrogate in *. bool_hyps; lia.
  - destruct (is_low_surrogate c) eqn:El; [discriminate|].
    destruct (IH (length rest) ltac:(cbn; lia) rest eq_refl Hw) as [r ->].
    destruct (uriUnreserved c); by eexists.
Qed.

(** C9. For every valid filename (a sequence of UTF-16 code units without a
    lone surrogate), [encodeURIComponent] returns an encoding and
    [decodeURIComponent] of that encoding is the original name. *)
Theorem decodeURIComponent_encodeURIComponent (name : jsstring) :
  code_units name -> isWellFormed name = true ->
  exists e,
    encodeURIComponent name = Some e /\ decodeURIComponent e = Some name.
Proof.
  intros Hu Hw. destruct (isWellFormed_Encode name Hw) as [e He].
  exists e. split; [exact He|].
  unfold decodeURIComponent.
  apply (Decode_Encode_fuel (length name)); auto using Encode_length.
Qed.

(** The name ["My Resume"] followed by U+00E9, U+20AC and U+1F600. *)
Lemma decodeURIComponent_encodeURIComponent_witness :
  exists e,
    encodeURIComponent (lit "My Resume" ++ [233; 8364; 55357; 56832]) = Some e
    /\ decodeURIComponent e = Some (lit "My Resume" ++ [233; 8364; 55357; 56832]).
Proof.
  apply decodeURIComponent_encodeURIComponent.
  - unfold code_units, code_unit. cbn.
    repeat (apply Forall_cons_2; [lia|]). apply Forall_nil_2.
  - reflexivity.
Defined.

(** ** The bucket policy *)

Lemma GetSubstitution_plain matched before after template :
  Forall (fun u => Spec.plain_code_unit u = true) template ->
  GetSubstitution matched before after template = template.
Proof.
  induction 1 as [|c t Hc _ IH]; [reflexivity|].
  cbn [GetSubstitution]. unfold Spec.plain_code_unit, dollar in *. bool_hyps.
  replace (c =? 36) with false by (symmetry; apply Z.eqb_neq; lia).
  now rewrite IH.
Qed.

Lemma replace_scan_plain pattern replacement s :
  Forall (fun u => Spec.plain_code_unit u = true) replacement ->
  forall skip before,
    replace_scan pattern replacement skip before s
    = substitute_scan pattern replacement skip s.
Proof.
  intros Hp. induction s as [|c s IH]; intros skip before; [reflexivity|].
  cbn [replace_scan substitute_scan]. destruct skip as [|k]; [|apply IH].
  destruct (starts_with pattern (c :: s)).
  - now rewrite GetSubstitution_plain, IH.
  - now rewrite IH.
Qed.

Lemma quote_body_plain s :
  Forall (fun u => Spec.plain_code_unit u = true) s -> quote_body s = s.
Proof.
  induction 1 as [|c t Hc _ IH]; [reflexivity|].
  cbn [quote_body]. rewrite IH.
  unfold Spec.plain_code_unit, is_high_surrogate, is_low_surrogate,
    quote_code_unit, quotation_mark, reverse_solidus in *.
  bool_hyps. decide_tests. cbn [andb]. 
  destruct t; reflexivity.
Qed.

Lemma plain_lit_arn :
  Forall (fun u => Spec.plain_code_unit u = true) (lit "arn:aws:s3:::").
Proof. repeat (apply Forall_cons_2; [reflexivity|]). apply Forall_nil_2. Qed.

Lemma policy_substituted bucketName :
  Forall (fun u => Spec.plain_code_unit u = true) bucketName ->
  replace_global (lit "{{bucketName}}") bucketName
    (JSON_stringify PUBLIC_ACCESS_POLICY)
  = JSON_stringify (Spec.policy_document bucketName).
Proof.
  intros Hp. unfold replace_global. rewrite replace_scan_plain by assumption.
  unfold Spec.policy_document. cbn [JSON_stringify].
  unfold QuoteJSONString.
  rewrite !quote_body_plain.
  2-4: (apply Forall_app_2; [apply plain_lit_arn|]; apply Forall_app_2; [assumption|];
       repeat (apply Forall_cons_2; [reflexivity|]); apply Forall_nil_2).
  all: repeat (apply Forall_cons_2; [reflexivity|]); try apply Forall_nil_2.
  repeat first [rewrite <- app_assoc | rewrite <- app_comm_cons].
  vm_compute. reflexivity.
Qed.

(** ** The service over an arbitrary client *)

Ltac unfold_service :=
  unfold onModuleInit, Storage.bucketExists, uploadObject, deleteObject,
    deleteFolder, deleteFolder_list, deleteFolder_remove,
    encodeURIComponent_or_throw, sharp_resize_jpeg,
    logger_log, logger_warn, logger_error, logger,
    mbind, M_bind, bind, try_catch, await, ret, throw, this_bucketName.

Ltac unfold_spec :=
  unfold Spec.object_path, Spec.extension, Spec.public_url, Spec.upload_failed,
    Spec.delete_failed, Spec.delete_folder_failed, Spec.pdf_metadata,
    Spec.jpeg_metadata, Spec.resize_options in *.

Ltac simpl_world := cbn [fst snd store calls logs].

(** The test [extension === "jpg"] once the upload type is known. *)
Ltac eval_extension :=
  cbv beta iota zeta;
  repeat first
    [ progress change (strict_equal (lit "jpg") (lit "jpg")) with true
    | progress change (strict_equal (lit "pdf") (lit "jpg")) with false ];
  cbv iota.

Ltac join_extension :=
  change (lit "." ++ lit "pdf") with (lit ".pdf") in *.

Section GenericClient.
Context {S : Type} `{MinioClient S}.
Variable config : Config.

Lemma deleteObject_run userId type filename e (w : World S) r s' :
  encodeURIComponent filename = Some e ->
  client_removeObject (STORAGE_BUCKET config)
    (Spec.object_path userId type e) (store w) = (r, s') ->
  fst (deleteObject config userId type filename w)
  = match r with
    | Ok _ => Return tt
    | Err _ => Throw (Spec.delete_failed (Spec.object_path userId type e))
    end
  /\ calls (snd (deleteObject config userId type filename w))
     = calls w ++ [CallRemoveObject (STORAGE_BUCKET config)
                     (Spec.object_path userId type e)]
  /\ store (snd (deleteObject config userId type filename w)) = s'.
Proof.
  intros He Hrm.
  unfold_service. rewrite He. simpl_world. unfold_spec.
  rewrite Hrm. destruct r; simpl_world; auto.
Qed.

Lemma deleteObject_not_encodable userId type filename (w : World S) :
  encodeURIComponent filename = None ->
  deleteObject config userId type filename w = (Throw URIError, w).
Proof. intros He. unfold_service. now rewrite He. Qed.

Lemma uploadObject_not_encodable userId type buffer filename (w : World S) :
  encodeURIComponent filename = None ->
  uploadObject config userId type buffer filename w = (Throw URIError, w).
Proof. intros He. unfold_service. now rewrite He. Qed.

Lemma uploadObject_rejected_input userId type buffer filename e (w : World S) :
  encodeURIComponent filename = Some e ->
  Spec.normalized type buffer = None ->
  fst (uploadObject config userId type buffer filename w)
  = Throw Spec.upload_failed
  /\ calls (snd (uploadObject config userId type buffer filename w)) = calls w
  /\ store (snd (uploadObject config userId type buffer filename w)) = store w.
Proof.
  intros He Hn. unfold_service. rewrite He.
  destruct type; eval_extension; cbn [Spec.normalized] in Hn; try discriminate;
    unfold_spec; rewrite Hn; simpl_world; auto.
Qed.

Lemma uploadObject_put_failed userId type buffer filename e b err s1
  (w : World S) :
  encodeURIComponent filename = Some e ->
  Spec.normalized type buffer = Some b ->
  client_putObject (STORAGE_BUCKET config) (Spec.object_path userId type e) b
    (Spec.metadata_of type e) (store w) = (Err err, s1) ->
  fst (uploadObject config userId type buffer filename w)
  = Throw Spec.upload_failed
  /\ calls (snd (uploadObject config userId type buffer filename w))
     = calls w ++ [CallPutObject (STORAGE_BUCKET config)
                     (Spec.object_path userId type e) b
                     (Spec.metadata_of type e)]
  /\ store (snd (uploadObject config userId type buffer filename w)) = s1.
Proof.
  intros He Hn Hput. unfold_service. rewrite He.
  destruct type; eval_extension; cbn [Spec.normalized] in Hn;
    try (injection Hn as ->);
    unfold_spec; try rewrite Hn;
    cbn [Spec.metadata_of] in *; unfold_spec; join_extension;
    simpl_world; rewrite Hput; simpl_world; auto.
Qed.

Lemma uploadObject_put_ok userId type buffer filename e b s1 r s2
  (w : World S) :
  encodeURIComponent filename = Some e ->
  Spec.normalized type buffer = Some b ->
  client_putObject (STORAGE_BUCKET config) (Spec.object_path userId type e) b
    (Spec.metadata_of type e) (store w) = (Ok tt, s1) ->
  client_statObject (STORAGE_BUCKET config) (Spec.object_path userId type e) s1
  = (r, s2) ->
  fst (uploadObject config userId type buffer filename w)
  = match r with
    | Ok _ => Return (Spec.public_url config (Spec.object_path userId type e))
    | Err _ => Throw Spec.upload_failed
    end
  /\ calls (snd (uploadObject config userId type buffer filename w))
     = calls w ++ [CallPutObject (STORAGE_BUCKET config)
                     (Spec.object_path userId type e) b
                     (Spec.metadata_of type e);
                   CallStatObject (STORAGE_BUCKET config)
                     (Spec.object_path userId type e)]
  /\ store (snd (uploadObject config userId type buffer filename w)) = s2.
Proof.
  intros He Hn Hput Hstat. unfold_service. rewrite He.
  destruct type; eval_extension; cbn [Spec.normalized] in Hn;
    try (injection Hn as ->);
    unfold_spec; try rewrite Hn;
    cbn [Spec.metadata_of] in *; unfold_spec; join_extension;
    simpl_world; rewrite Hput; simpl_world; rewrite Hstat;
    destruct r as [[]|]; simpl_world;
    rewrite <- ?app_assoc; auto.
Qed.

(** *** [onModuleInit] *)

Lemma onModuleInit_skip (w : World S) :
  STORAGE_SKIP_BUCKET_CHECK config = true ->
  onModuleInit config w
  = (Return tt,
     {| store := store w; calls := calls w;
        logs := logs w ++
          [ {| level := WARN;
               text := lit "Skipping the verification of whether the storage bucket exists.";
               detail := None |};
            {| level := WARN;
               text := lit "Make sure that the following paths are publicly accessible: `/{pictures,previews,resumes}/*`";
               detail := None |} ] |}).
Proof.
  intros Hs. unfold_service. rewrite Hs. simpl_world.
  now rewrite <- app_assoc.
Qed.

Lemma onModuleInit_exists (w : World S) s1 :
  STORAGE_SKIP_BUCKET_CHECK config = false ->
  client_bucketExists (STORAGE_BUCKET config) (store w) = (Ok true, s1) ->
  fst (onModuleInit config w) = Return tt
  /\ calls (snd (onModuleInit config w))
     = calls w ++ [CallBucketExists (STORAGE_BUCKET config)]
  /\ store (snd (onModuleInit config w)) = s1.
Proof.
  intros Hs Hex. unfold_service. rewrite Hs. simpl_world. rewrite Hex.
  simpl_world. auto.
Qed.

Lemma onModuleInit_check_failed (w : World S) e s1 :
  STORAGE_SKIP_BUCKET_CHECK config = false ->
  client_bucketExists (STORAGE_BUCKET config) (store w) = (Err e, s1) ->
  fst (onModuleInit config w)
  = Throw (InternalServerErrorExceptionOf (StoreError e))
  /\ calls (snd (onModuleInit config w))
     = calls w ++ [CallBucketExists (STORAGE_BUCKET config)]
  /\ store (snd (onModuleInit config w)) = s1.
Proof.
  intros Hs Hex. unfold_service. rewrite Hs. simpl_world. rewrite Hex.
  simpl_world. auto.
Qed.

Lemma onModuleInit_create_failed (w : World S) e s1 s2 :
  STORAGE_SKIP_BUCKET_CHECK config = false ->
  client_bucketExists (STORAGE_BUCKET config) (store w) = (Ok false, s1) ->
  client_makeBucket (STORAGE_BUCKET config) s1 = (Err e, s2) ->
  fst (onModuleInit config w)
  = Throw (InternalServerErrorExceptionOf
             (InternalServerErrorException
                (lit "There was an error while creating the storage bucket.")))
  /\ calls (snd (onModuleInit config w))
     = calls w ++ [CallBucketExists (STORAGE_BUCKET config);
                   CallMakeBucket (STORAGE_BUCKET config)]
  /\ store (snd (onModuleInit config w)) = s2.
Proof.
  intros Hs Hex Hmk. unfold_service. rewrite Hs. simpl_world. rewrite Hex.
  simpl_world. rewrite Hmk. simpl_world. rewrite <- ?app_assoc. auto.
Qed.

Lemma onModuleInit_policy_failed (w : World S) e s1 s2 s3 :
  STORAGE_SKIP_BUCKET_CHECK config = false ->
  client_bucketExists (STORAGE_BUCKET config) (store w) = (Ok false, s1) ->
  client_makeBucket (STORAGE_BUCKET config) s1 = (Ok tt, s2) ->
  client_setBucketPolicy (STORAGE_BUCKET config) (bucketPolicy config) s2 = (Err e, s3) ->
  fst (onModuleInit config w)
  = Throw (InternalServerErrorExceptionOf
             (InternalServerErrorException
                (lit "There was an error while applying the policy to the storage bucket.")))
  /\ calls (snd (onModuleInit config w))
     = calls w ++ [CallBucketExists (STORAGE_BUCKET config);
                   CallMakeBucket (STORAGE_BUCKET config);
                   CallSetBucketPolicy (STORAGE_BUCKET config) (bucketPolicy config)]
  /\ store (snd (onModuleInit config w)) = s3.
Proof.
  intros Hs Hex Hmk Hpol. unfold_service. rewrite Hs. simpl_world. rewrite Hex.
  simpl_world. rewrite Hmk. simpl_world. rewrite Hpol. simpl_world.
  rewrite <- ?app_assoc. auto.
Qed.

Lemma onModuleInit_created (w : World S) s1 s2 s3 :
  STORAGE_SKIP_BUCKET_CHECK config = false ->
  client_bucketExists (STORAGE_BUCKET config) (store w) = (Ok false, s1) ->
  client_makeBucket (STORAGE_BUCKET config) s1 = (Ok tt, s2) ->
  client_setBucketPolicy (STORAGE_BUCKET config) (bucketPolicy config) s2 = (Ok tt, s3) ->
  fst (onModuleInit config w) = Return tt
  /\ calls (snd (onModuleInit config w))
     = calls w ++ [CallBucketExists (STORAGE_BUCKET config);
                   CallMakeBucket (STORAGE_BUCKET config);
                   CallSetBucketPolicy (STORAGE_BUCKET config) (bucketPolicy config)]
  /\ store (snd (onModuleInit config w)) = s3.
Proof.
  intros Hs Hex Hmk Hpol. unfold_service. rewrite Hs. simpl_world. rewrite Hex.
  simpl_world. rewrite Hmk. simpl_world. rewrite Hpol. simpl_world.
  rewrite <- ?app_assoc. auto.
Qed.

Lemma onModuleInit_throws (w : World S) e :
  fst (onModuleInit config w) = Throw e -> is_internal_server_error e = true.
Proof.
  destruct (STORAGE_SKIP_BUCKET_CHECK config) eqn:Hs.
  { rewrite onModuleInit_skip by assumption. discriminate. }
  destruct (client_bucketExists (STORAGE_BUCKET config) (store w))
    as [[[]|e1] s1] eqn:Hex.
  - destruct (onModuleInit_exists w s1 Hs Hex) as (-> & _). discriminate.
  - destruct (client_makeBucket (STORAGE_BUCKET config) s1)
      as [[[]|e2] s2] eqn:Hmk.
    + destruct (client_setBucketPolicy (STORAGE_BUCKET config) (bucketPolicy config) s2)
        as [[[]|e3] s3] eqn:Hpol.
      * destruct (onModuleInit_created w s1 s2 s3 Hs Hex Hmk Hpol) as (-> & _).
        discriminate.
      * destruct (onModuleInit_policy_failed w e3 s1 s2 s3 Hs Hex Hmk Hpol)
          as (-> & _).
        now intros [= <-].
    + destruct (onModuleInit_create_failed w e2 s1 s2 Hs Hex Hmk) as (-> & _).
      now intros [= <-].
  - destruct (onModuleInit_check_failed w e1 s1 Hs Hex) as (-> & _).
    now intros [= <-].
Qed.

(** *** [bucketExists] *)

Lemma bucketExists_run (w : World S) r s1 :
  client_bucketExists (STORAGE_BUCKET config) (store w) = (r, s1) ->
  fst (Storage.bucketExists config w)
  = match r with
    | Ok true => Return tt
    | Ok false =>
        Throw (InternalServerErrorException
                 (lit "There was an error while checking if the storage bucket exists."))
    | Err e => Throw (StoreError e)
    end
  /\ calls (snd (Storage.bucketExists config w))
     = calls w ++ [CallBucketExists (STORAGE_BUCKET config)]
  /\ store (snd (Storage.bucketExists config w)) = s1.
Proof.
  intros Hex. unfold_service. rewrite Hex.
  destruct r as [[]|]; simpl_world; auto.
Qed.

(** *** [deleteFolder] *)

Lemma collect_names (l : list BucketItem) (acc : list jsstring) :
  fold_left (fun acc object => acc ++ [name object]) l acc
  = acc ++ map name l.
Proof.
  revert acc. induction l as [|o l IH]; intros acc; cbn [fold_left map].
  - now rewrite app_nil_r.
  - rewrite IH, <- app_assoc. reflexivity.
Qed.

Lemma deleteFolder_list_run prefix (w : World S) stream s1 :
  client_listObjectsV2 (STORAGE_BUCKET config) prefix true (store w)
  = (stream, s1) ->
  deleteFolder_list config prefix w
  = (match failure stream with
     | None => Return (map name (items stream))
     | Some e => Throw (StoreError e)
     end,
     {| store := s1;
        calls := calls w
                 ++ [CallListObjectsV2 (STORAGE_BUCKET config) prefix true];
        logs := logs w |}).
Proof.
  intros Hl. unfold_service. rewrite Hl, collect_names.
  now destruct (failure stream).
Qed.

Lemma deleteFolder_remove_run prefix objectsList (w : World S) r s1 :
  client_removeObjects (STORAGE_BUCKET config) objectsList (store w) = (r, s1) ->
  fst (deleteFolder_remove config prefix objectsList w)
  = match r with
    | Ok _ => Return tt
    | Err _ =>
        Throw (Spec.delete_folder_failed (STORAGE_BUCKET config) prefix)
    end
  /\ calls (snd (deleteFolder_remove config prefix objectsList w))
     = calls w ++ [CallRemoveObjects (STORAGE_BUCKET config) objectsList]
  /\ store (snd (deleteFolder_remove config prefix objectsList w)) = s1.
Proof.
  intros Hrm. unfold_service. unfold_spec. simpl_world. rewrite Hrm.
  destruct r; simpl_world; auto.
Qed.

Lemma deleteFolder_listing_failed prefix (w : World S) stream s1 e :
  client_listObjectsV2 (STORAGE_BUCKET config) prefix true (store w)
  = (stream, s1) ->
  failure stream = Some e ->
  fst (deleteFolder config prefix w) = Throw (StoreError e)
  /\ calls (snd (deleteFolder config prefix w))
     = calls w ++ [CallListObjectsV2 (STORAGE_BUCKET config) prefix true].
Proof.
  intros Hl Hf. unfold deleteFolder, mbind, M_bind, bind.
  rewrite (deleteFolder_list_run prefix w stream s1 Hl), Hf. auto.
Qed.

Lemma deleteFolder_run prefix (w : World S) stream s1 r s2 :
  client_listObjectsV2 (STORAGE_BUCKET config) prefix true (store w)
  = (stream, s1) ->
  failure stream = None ->
  client_removeObjects (STORAGE_BUCKET config) (map name (items stream)) s1
  = (r, s2) ->
  fst (deleteFolder config prefix w)
  = match r with
    | Ok _ => Return tt
    | Err _ =>
        Throw (Spec.delete_folder_failed (STORAGE_BUCKET config) prefix)
    end
  /\ calls (snd (deleteFolder config prefix w))
     = calls w ++ [CallListObjectsV2 (STORAGE_BUCKET config) prefix true;
                   CallRemoveObjects (STORAGE_BUCKET config)
                     (map name (items stream))]
  /\ store (snd (deleteFolder config prefix w)) = s2.
Proof.
  intros Hl Hf Hrm. unfold deleteFolder, mbind, M_bind, bind.
  rewrite (deleteFolder_list_run prefix w stream s1 Hl), Hf.
  match goal with
  | |- context [deleteFolder_remove config prefix ?l ?w'] =>
      destruct (deleteFolder_remove_run prefix l w' r s2 Hrm) as (-> & -> & ->)
  end.
  simpl_world. rewrite <- app_assoc. auto.
Qed.

End GenericClient.

(** ** The service over the reference store *)

Section ReferenceStore.
Variable config : Config.

Abbreviation bucketName := (STORAGE_BUCKET config).

Ltac unfold_store :=
  cbn [client_bucketExists client_makeBucket client_setBucketPolicy
       client_putObject client_statObject client_removeObject
       client_listObjectsV2 client_removeObjects MemStore.client];
  unfold MemStore.bucketExists, MemStore.makeBucket, MemStore.setBucketPolicy,
    MemStore.putObject, MemStore.statObject, MemStore.removeObject,
    MemStore.listObjectsV2, MemStore.removeObjects, MemStore.guarded.

Lemma filter_none {A} (f : A -> bool) (l : list A) :
  (forall x, In x l -> f x = false) -> List.filter f l = [].
Proof.
  induction l as [|x l IH]; intros Hall; [reflexivity|].
  cbn [List.filter]. rewrite (Hall x) by now left.
  apply IH. intros y Hy. apply Hall. now right.
Qed.

Lemma list_names_spec prefix recursive (b : MemStore.Bucket) k :
  In k (MemStore.list_names prefix recursive b)
  <-> MemStore.listed prefix recursive k = true
      /\ is_Some (MemStore.objects b !! k).
Proof.
  unfold MemStore.list_names. rewrite filter_In, in_map_iff. split.
  - intros [[[k' v] [<- Hin]] Hl]. split; [assumption|].
    apply list_elem_of_In, elem_of_map_to_list in Hin. now exists v.
  - intros [Hl [v Hv]]. split; [|assumption].
    exists (k, v). split; [reflexivity|].
    now apply list_elem_of_In, elem_of_map_to_list.
Qed.

Lemma list_names_after_removal prefix recursive (b : MemStore.Bucket) p :
  MemStore.list_names prefix recursive
    {| MemStore.objects :=
         foldr delete (MemStore.objects b)
           (MemStore.list_names prefix recursive b);
       MemStore.policy := p |}
  = [].
Proof.
  apply filter_none. intros k Hin.
  apply in_map_iff in Hin as [[k' v] [<- Hin]].
  apply list_elem_of_In, elem_of_map_to_list in Hin. cbn [MemStore.objects] in Hin.
  apply lookup_foldr_delete_Some in Hin as [Hnot Hv]. cbn [fst].
  destruct (MemStore.listed prefix recursive k') eqn:Hl; [|reflexivity].
  exfalso. apply Hnot, list_elem_of_In, list_names_spec. split; [assumption|].
  now exists v.
Qed.

Lemma names_of_items (l : list jsstring) :
  map name (map (fun n => {| name := n |}) l) = l.
Proof. induction l as [|x l IH]; cbn [map name]; [|rewrite IH]; reflexivity. Qed.

Lemma store_listObjectsV2 (st : MemStore.State) b prefix recursive :
  MemStore.faults st = [] -> MemStore.buckets st !! bucketName = Some b ->
  client_listObjectsV2 bucketName prefix recursive st
  = ({| items := map (fun n => {| name := n |})
                   (MemStore.list_names prefix recursive b);
        failure := None |},
     MemStore.settled (MemStore.buckets st)).
Proof. intros Hf Hb. unfold_store. now rewrite Hf, Hb. Qed.

Lemma store_listObjectsV2_no_bucket (st : MemStore.State) prefix recursive :
  MemStore.faults st = [] -> MemStore.buckets st !! bucketName = None ->
  client_listObjectsV2 bucketName prefix recursive st
  = ({| items := []; failure := Some MemStore.NoSuchBucket |},
     MemStore.settled (MemStore.buckets st)).
Proof. intros Hf Hb. unfold_store. now rewrite Hf, Hb. Qed.

Lemma store_removeObjects (st : MemStore.State) b objectsList :
  MemStore.faults st = [] -> MemStore.buckets st !! bucketName = Some b ->
  client_removeObjects bucketName objectsList st
  = (Ok tt,
     MemStore.settled
       (<[bucketName :=
            {| MemStore.objects := foldr delete (MemStore.objects b) objectsList;
               MemStore.policy := MemStore.policy b |}]>
          (MemStore.buckets st))).
Proof. intros Hf Hb. unfold_store. now rewrite Hf, Hb. Qed.

Lemma store_removeObject (st : MemStore.State) b objectName :
  MemStore.faults st = [] -> MemStore.buckets st !! bucketName = Some b ->
  client_removeObject bucketName objectName st
  = (Ok tt,
     MemStore.settled
       (<[bucketName :=
            {| MemStore.objects := delete objectName (MemStore.objects b);
               MemStore.policy := MemStore.policy b |}]>
          (MemStore.buckets st))).
Proof. intros Hf Hb. unfold_store. now rewrite Hf, Hb. Qed.

Lemma store_putObject (st : MemStore.State) b objectName buffer meta :
  MemStore.faults st = [] -> MemStore.buckets st !! bucketName = Some b ->
  client_putObject bucketName objectName buffer meta st
  = (Ok tt,
     MemStore.settled
       (<[bucketName :=
            {| MemStore.objects :=
                 <[objectName := {| MemStore.body := buffer;
                                    MemStore.metadata := meta |}]>
                   (MemStore.objects b);
               MemStore.policy := MemStore.policy b |}]>
          (MemStore.buckets st))).
Proof. intros Hf Hb. unfold_store. now rewrite Hf, Hb. Qed.

Lemma store_statObject (st : MemStore.State) b objectName o :
  MemStore.faults st = [] -> MemStore.buckets st !! bucketName = Some b ->
  MemStore.objects b !! objectName = Some o ->
  client_statObject bucketName objectName st
  = (Ok true, MemStore.settled (MemStore.buckets st)).
Proof. intros Hf Hb Ho. unfold_store. now rewrite Hf, Hb, Ho. Qed.

(** After a successful [deleteFolder], a listing under the same prefix is
    empty. *)
Lemma deleteFolder_then_listing prefix (st : MemStore.State) :
  MemStore.faults st = [] ->
  fst (deleteFolder config prefix (MemStore.fresh st)) = Return tt ->
  fst (deleteFolder_list config prefix
         (snd (deleteFolder config prefix (MemStore.fresh st))))
  = Return [].
Proof.
  intros Hf Hok.
  destruct (MemStore.buckets st !! bucketName) as [b|] eqn:Hb.
  - pose proof (store_listObjectsV2 st b prefix true Hf Hb) as Hl.
    destruct (deleteFolder_run config prefix (MemStore.fresh st) _ _ _ _
                Hl eq_refl
                (store_removeObjects (MemStore.settled (MemStore.buckets st)) b _
                   eq_refl Hb)) as (_ & _ & Hst).
    erewrite deleteFolder_list_run; [cbn [fst]|].
    2:{ rewrite Hst. apply store_listObjectsV2; [reflexivity|].
        cbn [MemStore.settled MemStore.buckets]. apply lookup_insert_eq. }
    cbn [failure items]. rewrite !names_of_items.
    now rewrite list_names_after_removal.
  - pose proof (store_listObjectsV2_no_bucket st prefix true Hf Hb) as Hl.
    destruct (deleteFolder_listing_failed config prefix (MemStore.fresh st)
                _ _ MemStore.NoSuchBucket Hl eq_refl) as [Hthrow _].
    rewrite Hthrow in Hok. discriminate.
Qed.

Lemma store_uploadObject userId type buffer filename e b bk (st : MemStore.State) :
  encodeURIComponent filename = Some e ->
  Spec.normalized type buffer = Some b ->
  MemStore.faults st = [] -> MemStore.buckets st !! bucketName = Some bk ->
  fst (uploadObject config userId type buffer filename (MemStore.fresh st))
  = Return (Spec.public_url config (Spec.object_path userId type e))
  /\ MemStore.object_at bucketName (Spec.object_path userId type e)
       (store (snd (uploadObject config userId type buffer filename
                      (MemStore.fresh st))))
     = Some {| MemStore.body := b;
               MemStore.metadata := Spec.metadata_of type e |}.
Proof.
  intros He Hn Hf Hb.
  pose proof (store_putObject st bk (Spec.object_path userId type e) b
                (Spec.metadata_of type e) Hf Hb) as Hput.
  set (s1 := MemStore.settled _) in Hput.
  assert (Hstat : client_statObject bucketName
                    (Spec.object_path userId type e) s1
                  = (Ok true, MemStore.settled (MemStore.buckets s1))).
  { eapply store_statObject;
      [reflexivity | apply lookup_insert_eq | apply lookup_insert_eq]. }
  destruct (uploadObject_put_ok config userId type buffer filename e b
              _ _ _ (MemStore.fresh st) He Hn Hput Hstat)
    as (Hr & _ & Hst).
  split; [exact Hr|]. rewrite Hst. subst s1.
  unfold MemStore.object_at. cbn [MemStore.settled MemStore.buckets].
  rewrite lookup_insert_eq. cbn [MemStore.objects]. apply lookup_insert_eq.
Qed.

(** An object created after the listing survives the bulk removal. *)
Lemma deleteFolder_spares_later_object prefix (st : MemStore.State) bk
  objectName buffer meta :
  MemStore.faults st = [] -> MemStore.buckets st !! bucketName = Some bk ->
  MemStore.objects bk !! objectName = None ->
  exists objectsList w1,
    deleteFolder_list config prefix (MemStore.fresh st)
    = (Return objectsList, w1)
    /\ let s2 := snd (client_putObject bucketName objectName buffer meta
                        (store w1)) in
       let w2 := {| store := s2; calls := calls w1; logs := logs w1 |} in
       fst (deleteFolder_remove config prefix objectsList w2) = Return tt
       /\ MemStore.object_at bucketName objectName
            (store (snd (deleteFolder_remove config prefix objectsList w2)))
          = Some {| MemStore.body := buffer; MemStore.metadata := meta |}.
Proof.
  intros Hf Hb Hnew.
  eexists _, _. split.
  { erewrite deleteFolder_list_run by (apply store_listObjectsV2; eassumption).
    cbn [failure items]. rewrite names_of_items. reflexivity. }
  cbn [store calls logs MemStore.fresh].
  rewrite (store_putObject (MemStore.settled (MemStore.buckets st)) bk
             objectName buffer meta eq_refl Hb).
  cbn [snd].
  match goal with
  | |- context [deleteFolder_remove config prefix ?l ?w'] =>
      destruct (deleteFolder_remove_run config prefix l w' _ _
                  (store_removeObjects (store w') _ l eq_refl
                     (lookup_insert_eq _ _ _))) as (-> & _ & ->)
  end.
  split; [reflexivity|].
  unfold MemStore.object_at. cbn [MemStore.settled MemStore.buckets].
  rewrite lookup_insert_eq. cbn [MemStore.objects].
  rewrite lookup_foldr_delete_not_elem_of; [apply lookup_insert_eq|].
  intros Hin. apply list_elem_of_In, list_names_spec in Hin as [_ [o Ho]].
  congruence.
Qed.

End ReferenceStore.

(** ** What the service throws *)

Lemma uploadObject_throws {S : Type} `{MinioClient S} (config : Config)
  userId type buffer filename (w : World S) e :
  fst (uploadObject config userId type buffer filename w) = Throw e ->
  match encodeURIComponent filename with
  | Some _ => e = Spec.upload_failed
  | None => e = URIError
  end.
Proof.
  destruct (encodeURIComponent filename) as [enc|] eqn:He.
  2:{ rewrite uploadObject_not_encodable by assumption. now intros [= <-]. }
  intros Hthrow.
  destruct (Spec.normalized type buffer) as [b|] eqn:Hn.
  2:{ destruct (uploadObject_rejected_input config userId type buffer filename
                  enc w He Hn) as (Hr & _).
      congruence. }
  destruct (client_putObject (STORAGE_BUCKET config)
              (Spec.object_path userId type enc) b (Spec.metadata_of type enc)
              (store w)) as [[[]|err] s1] eqn:Hput.
  - destruct (client_statObject (STORAGE_BUCKET config)
                (Spec.object_path userId type enc) s1) as [r s2] eqn:Hstat.
    destruct (uploadObject_put_ok config userId type buffer filename enc b s1
                r s2 w He Hn Hput Hstat) as (Hr & _).
    destruct r; congruence.
  - destruct (uploadObject_put_failed config userId type buffer filename enc b
                err s1 w He Hn Hput) as (Hr & _).
    congruence.
Qed.

Lemma deleteObject_throws {S : Type} `{MinioClient S} (config : Config)
  userId type filename (w : World S) e :
  fst (deleteObject config userId type filename w) = Throw e ->
  match encodeURIComponent filename with
  | Some enc => e = Spec.delete_failed (Spec.object_path userId type enc)
  | None => e = URIError
  end.
Proof.
  destruct (encodeURIComponent filename) as [enc|] eqn:He.
  2:{ rewrite deleteObject_not_encodable by assumption. now intros [= <-]. }
  destruct (client_removeObject (STORAGE_BUCKET config)
              (Spec.object_path userId type enc) (store w)) as [r s1] eqn:Hrm.
  destruct (deleteObject_run config userId type filename enc w r s1 He Hrm)
    as (Hr & _).
  rewrite Hr. destruct r; congruence.
Qed.

Lemma deleteFolder_remove_throws {S : Type} `{MinioClient S} (config : Config)
  prefix objectsList (w : World S) e :
  fst (deleteFolder_remove config prefix objectsList w) = Throw e ->
  e = Spec.delete_folder_failed (STORAGE_BUCKET config) prefix.
Proof.
  destruct (client_removeObjects (STORAGE_BUCKET config) objectsList (store w))
    as [r s1] eqn:Hrm.
  destruct (deleteFolder_remove_run config prefix objectsList w r s1 Hrm)
    as (Hr & _).
  rewrite Hr. destruct r; congruence.
Qed.

(** ** The geometry of the stored picture *)

Lemma round_div_lower_bound a b q :
  0 < b -> q * b <= a -> q <= round_div a b.
Proof.
  intros Hb Hq. unfold round_div.
  apply Z.div_le_lower_bound; lia.
Qed.

(** With [fit: outside] the resized picture covers the 600 x 600 box: both
    of its sides are at least 600 pixels long, whatever the input. *)
Lemma resize_outside_covers_box (w h : Z) :
  0 < w -> 0 < h ->
  let r := resize_dimensions Spec.resize_options {| width := w; height := h |} in
  600 <= width r /\ 600 <= height r.
Proof.
  intros Hw Hh. unfold resize_dimensions, Spec.resize_options.
  cbn [opt_width opt_height opt_fit width height].
  destruct (w * 600 <? h * 600) eqn:E; bool_hyps;
    cbn [width height]; split; try lia; apply round_div_lower_bound; lia.
Qed.

(** * The claims *)

(** C1. The claim: every picture upload is stored within 600 x 600 pixels,
    never upscaled, and a 2000 x 1000 JPEG is stored within 600 x 300. The
    code: [uploadObject] resizes with [fit: outside], so the 2000 x 1000
    JPEG uploaded as [avatar] is stored as a 1200 x 600 JPEG, outside both
    boxes, and a 300 x 200 picture is enlarged to 900 x 600. *)
Theorem uploadObject_picture_exceeds_box :
  let run :=
    uploadObject Examples.config (lit "u1") pictures Examples.jpeg_2000x1000
      (lit "avatar") (MemStore.fresh Examples.provisioned) in
  let stored := Encoded jpeg_format 80 {| width := 1200; height := 600 |} in
  fst run = Return (lit "http://resaipro.com/default/u1/pictures/avatar.jpg")
  /\ MemStore.object_at (lit "default") (lit "u1/pictures/avatar.jpg")
       (store (snd run))
     = Some {| MemStore.body := stored;
               MemStore.metadata := Spec.jpeg_metadata |}
  /\ ~ Spec.fits_box 600 300 stored
  /\ ~ Spec.fits_box 600 600 stored
  /\ Spec.normalized pictures Examples.jpeg_300x200
     = Some (Encoded jpeg_format 80 {| width := 900; height := 600 |}).
Proof.
  cbv zeta. split; [vm_compute; reflexivity|].
  split; [vm_compute; reflexivity|].
  split; [cbn; lia|].
  split; [cbn; lia|].
  reflexivity.
Qed.

(** C2. [uploadObject] and [deleteObject] address the same object path
    [{userId}/{type}/{encodeURIComponent(filename)}.{ext}], a function of
    the three inputs alone, with [ext] equal to [pdf] exactly for [resumes]
    and to [jpg] otherwise. [deleteObject] calls [removeObject] at that
    path. [uploadObject] calls [putObject] at that path with the normalised
    bytes, then [statObject] at that path, and returns the configured
    [STORAGE_URL], a slash and that path; it throws instead, with its fixed
    exception, exactly when sharp rejects the picture (nothing is called),
    when [putObject] is rejected ([statObject] is not called) or when
    [statObject] is rejected. When the name cannot be encoded, both throw
    [URIError] and call nothing. *)
Theorem object_path_shared {S : Type} `{MinioClient S} (config : Config)
  (userId : jsstring) (type : UploadType) (buffer : Buffer)
  (filename : jsstring) (w : World S) :
  (Spec.extension type = lit "pdf" <-> type = resumes)
  /\ (Spec.extension type = lit "jpg" <-> type <> resumes)
  /\ match encodeURIComponent filename with
     | Some e =>
         let path :=
           userId ++ lit "/" ++ UploadType_string type ++ lit "/" ++ e
           ++ lit "." ++ Spec.extension type in
         let bucket := STORAGE_BUCKET config in
         let upload := uploadObject config userId type buffer filename w in
         calls (snd (deleteObject config userId type filename w))
         = calls w ++ [CallRemoveObject bucket path]
         /\ match Spec.normalized type buffer with
            | None =>
                fst upload = Throw Spec.upload_failed
                /\ calls (snd upload) = calls w
            | Some b =>
                let meta := Spec.metadata_of type e in
                match client_putObject bucket path b meta (store w) with
                | (Err _, _) =>
                    fst upload = Throw Spec.upload_failed
                    /\ calls (snd upload)
                       = calls w ++ [CallPutObject bucket path b meta]
                | (Ok _, s1) =>
                    fst upload
                    = match fst (client_statObject bucket path s1) with
                      | Ok _ =>
                          Return (STORAGE_URL config ++ lit "/" ++ path)
                      | Err _ => Throw Spec.upload_failed
                      end
                    /\ calls (snd upload)
                       = calls w ++ [CallPutObject bucket path b meta;
                                     CallStatObject bucket path]
                end
            end
     | None =>
         uploadObject config userId type buffer filename w = (Throw URIError, w)
         /\ deleteObject config userId type filename w = (Throw URIError, w)
     end.
Proof.
  split; [destruct type; split; (discriminate || reflexivity || congruence)|].
  split; [destruct type; split; (discriminate || reflexivity || congruence)|].
  destruct (encodeURIComponent filename) as [e|] eqn:He.
  2:{ split; [now apply uploadObject_not_encodable
             |now apply deleteObject_not_encodable]. }
  cbv zeta. change (userId ++ lit "/" ++ UploadType_string type ++ lit "/" ++ e
                    ++ lit "." ++ Spec.extension type)
    with (Spec.object_path userId type e).
  split.
  { destruct (client_removeObject (STORAGE_BUCKET config)
                (Spec.object_path userId type e) (store w)) as [r s1] eqn:Hrm.
    now destruct (deleteObject_run config userId type filename e w r s1 He Hrm)
      as (_ & Hc & _). }
  destruct (Spec.normalized type buffer) as [b|] eqn:Hn.
  2:{ now destruct (uploadObject_rejected_input config userId type buffer
                      filename e w He Hn) as (Hr & Hc & _). }
  destruct (client_putObject (STORAGE_BUCKET config)
              (Spec.object_path userId type e) b (Spec.metadata_of type e)
              (store w)) as [[[]|err] s1] eqn:Hput.
  - destruct (client_statObject (STORAGE_BUCKET config)
                (Spec.object_path userId type e) s1) as [r s2] eqn:Hstat.
    destruct (uploadObject_put_ok config userId type buffer filename e b s1
                r s2 w He Hn Hput Hstat) as (Hr & Hc & _).
    cbn [fst]. split; [|exact Hc]. rewrite Hr. now destruct r.
  - now destruct (uploadObject_put_failed config userId type buffer filename
                    e b err s1 w He Hn Hput) as (Hr & Hc & _).
Qed.

(** The document [My Resume] of user [u1] in the provisioned bucket: the
    upload returns the URL of the path the deletion removes. *)
Lemma object_path_shared_witness :
  calls (snd (deleteObject Examples.config (lit "u1") resumes
                (lit "My Resume") (MemStore.fresh Examples.provisioned)))
  = [CallRemoveObject (lit "default") (lit "u1/resumes/My%20Resume.pdf")]
  /\ fst (uploadObject Examples.config (lit "u1") resumes Examples.pdf_bytes
            (lit "My Resume") (MemStore.fresh Examples.provisioned))
     = Return (lit "http://resaipro.com/default/u1/resumes/My%20Resume.pdf").
Proof.
  pose proof (object_path_shared Examples.config (lit "u1") resumes
                Examples.pdf_bytes (lit "My Resume")
                (MemStore.fresh Examples.provisioned)) as (_ & _ & Hpath).
  vm_compute in Hpath. vm_compute.
  destruct Hpath as (Hdelete & Hupload & _). split; assumption.
Defined.

(** C3. For a document upload ([resumes]) the first call on the client is
    [putObject] at [{userId}/resumes/{encoded name}.pdf] with the input
    buffer itself and the metadata [Content-Type: application/pdf],
    [Content-Disposition: attachment; filename*=UTF-8''{encoded name}.pdf];
    on the reference store the object found at that path afterwards has
    exactly these bytes and this metadata. *)
Theorem uploadObject_document_verbatim (config : Config)
  (userId : jsstring) (buffer : Buffer) (filename e : jsstring) :
  encodeURIComponent filename = Some e ->
  let path := userId ++ lit "/resumes/" ++ e ++ lit ".pdf" in
  let meta :=
    [ (lit "Content-Type", lit "application/pdf");
      (lit "Content-Disposition",
        lit "attachment; filename*=UTF-8''" ++ e ++ lit ".pdf") ] in
  (forall (S : Type) (client : MinioClient S) (w : World S),
     exists rest,
       calls (snd (uploadObject config userId resumes buffer filename w))
       = calls w
         ++ CallPutObject (STORAGE_BUCKET config) path buffer meta :: rest)
  /\ (forall (st : MemStore.State) (bk : MemStore.Bucket),
        MemStore.faults st = [] ->
        MemStore.buckets st !! STORAGE_BUCKET config = Some bk ->
        MemStore.object_at (STORAGE_BUCKET config) path
          (store (snd (uploadObject config userId resumes buffer filename
                         (MemStore.fresh st))))
        = Some {| MemStore.body := buffer; MemStore.metadata := meta |}).
Proof.
  intros He path meta.
  assert (Hpath : path = Spec.object_path userId resumes e).
  { subst path. unfold Spec.object_path. cbn [UploadType_string Spec.extension].
    repeat (rewrite <- ?app_assoc; f_equal). }
  assert (Hmeta : meta = Spec.metadata_of resumes e) by reflexivity.
  rewrite Hpath, Hmeta. clear Hpath Hmeta path meta. split.
  - intros S client w.
    destruct (client_putObject (STORAGE_BUCKET config)
                (Spec.object_path userId resumes e) buffer
                (Spec.metadata_of resumes e) (store w))
      as [[[]|err] s1] eqn:Hput.
    + destruct (client_statObject (STORAGE_BUCKET config)
                  (Spec.object_path userId resumes e) s1) as [r s2] eqn:Hstat.
      destruct (uploadObject_put_ok config userId resumes buffer filename e
                  buffer s1 r s2 w He eq_refl Hput Hstat) as (_ & Hc & _).
      rewrite Hc. eauto.
    + destruct (uploadObject_put_failed config userId resumes buffer filename
                  e buffer err s1 w He eq_refl Hput) as (_ & Hc & _).
      rewrite Hc. eauto.
  - intros st bk Hf Hb.
    now destruct (store_uploadObject config userId resumes buffer filename e
                    buffer bk st He eq_refl Hf Hb) as (_ & Ho).
Qed.

(** The document of the specification: [My Resume] uploaded by [u1] into the
    provisioned bucket. *)
Lemma uploadObject_document_verbatim_witness :
  MemStore.object_at (lit "default") (lit "u1/resumes/My%20Resume.pdf")
    (store (snd (uploadObject Examples.config (lit "u1") resumes
                   Examples.pdf_bytes (lit "My Resume")
                   (MemStore.fresh Examples.provisioned))))
  = Some {| MemStore.body := Examples.pdf_bytes;
            MemStore.metadata :=
              [ (lit "Content-Type", lit "application/pdf");
                (lit "Content-Disposition",
                  lit "attachment; filename*=UTF-8''My%20Resume.pdf") ] |}.
Proof.
  apply (proj2 (uploadObject_document_verbatim Examples.config (lit "u1")
                  Examples.pdf_bytes (lit "My Resume") (lit "My%20Resume")
                  eq_refl)
           Examples.provisioned Examples.empty_bucket);
    reflexivity.
Defined.

(** C4. [onModuleInit]: with the skip flag set, two warnings are logged and
    the client is not called; otherwise an existing bucket is left as it is,
    and an absent one is created and then given the public-read policy, which
    is the JSON document with the bucket name in its three resource ARNs
    (for a bucket name made of plain code units); a failure of the existence
    check, of the creation or of the policy call makes [onModuleInit] throw
    an [InternalServerErrorException], and it throws nothing else. *)
Theorem onModuleInit_provisions_bucket {S : Type} `{MinioClient S}
  (config : Config) (w : World S) :
  let bucketName := STORAGE_BUCKET config in
  (STORAGE_SKIP_BUCKET_CHECK config = true ->
     exists warning1 warning2,
       onModuleInit config w
       = (Return tt,
          {| store := store w; calls := calls w;
             logs := logs w ++ [ {| level := WARN; text := warning1; detail := None |};
                                 {| level := WARN; text := warning2; detail := None |} ] |}))
  /\ (STORAGE_SKIP_BUCKET_CHECK config = false ->
      forall s1,
        client_bucketExists bucketName (store w) = (Ok true, s1) ->
        fst (onModuleInit config w) = Return tt
        /\ calls (snd (onModuleInit config w))
           = calls w ++ [CallBucketExists bucketName])
  /\ (STORAGE_SKIP_BUCKET_CHECK config = false ->
      Forall (fun u => Spec.plain_code_unit u = true) bucketName ->
      forall s1 s2 s3,
        let policy := JSON_stringify (Spec.policy_document bucketName) in
        client_bucketExists bucketName (store w) = (Ok false, s1) ->
        client_makeBucket bucketName s1 = (Ok tt, s2) ->
        client_setBucketPolicy bucketName policy s2 = (Ok tt, s3) ->
        fst (onModuleInit config w) = Return tt
        /\ calls (snd (onModuleInit config w))
           = calls w ++ [CallBucketExists bucketName;
                         CallMakeBucket bucketName;
                         CallSetBucketPolicy bucketName policy])
  /\ (STORAGE_SKIP_BUCKET_CHECK config = false ->
      (forall e s1,
         client_bucketExists bucketName (store w) = (Err e, s1) ->
         exists error,
           fst (onModuleInit config w) = Throw error
           /\ is_internal_server_error error = true)
      /\ (forall e s1 s2,
            client_bucketExists bucketName (store w) = (Ok false, s1) ->
            client_makeBucket bucketName s1 = (Err e, s2) ->
            exists error,
              fst (onModuleInit config w) = Throw error
              /\ is_internal_server_error error = true)
      /\ (forall e s1 s2 s3,
            client_bucketExists bucketName (store w) = (Ok false, s1) ->
            client_makeBucket bucketName s1 = (Ok tt, s2) ->
            client_setBucketPolicy bucketName (bucketPolicy config) s2
            = (Err e, s3) ->
            exists error,
              fst (onModuleInit config w) = Throw error
              /\ is_internal_server_error error = true))
  /\ (forall error,
        fst (onModuleInit config w) = Throw error ->
        is_internal_server_error error = true).
Proof.
  cbv zeta. split; [|split; [|split; [|split]]].
  - intros Hs. eexists _, _. now apply onModuleInit_skip.
  - intros Hs s1 Hex.
    now destruct (onModuleInit_exists config w s1 Hs Hex) as (Hr & Hc & _).
  - intros Hs Hplain s1 s2 s3 Hex Hmk Hpol.
    rewrite <- (policy_substituted (STORAGE_BUCKET config) Hplain) in *.
    now destruct (onModuleInit_created config w s1 s2 s3 Hs Hex Hmk Hpol)
      as (Hr & Hc & _).
  - intros Hs. split; [|split].
    + intros e s1 Hex.
      destruct (onModuleInit_check_failed config w e s1 Hs Hex) as (Hr & _).
      eauto.
    + intros e s1 s2 Hex Hmk.
      destruct (onModuleInit_create_failed config w e s1 s2 Hs Hex Hmk)
        as (Hr & _).
      eauto.
    + intros e s1 s2 s3 Hex Hmk Hpol.
      destruct (onModuleInit_policy_failed config w e s1 s2 s3 Hs Hex Hmk Hpol)
        as (Hr & _).
      eauto.
  - apply onModuleInit_throws.
Qed.

(** Start-up against a store without the bucket: the bucket is created and
    receives the policy of [default]; with the skip flag nothing is called. *)
Lemma onModuleInit_provisions_bucket_witness :
  (fst (onModuleInit Examples.config (MemStore.fresh Examples.blank))
   = Return tt
   /\ calls (snd (onModuleInit Examples.config (MemStore.fresh Examples.blank)))
      = [] ++ [CallBucketExists (lit "default");
               CallMakeBucket (lit "default");
               CallSetBucketPolicy (lit "default")
                 (JSON_stringify (Spec.policy_document (lit "default")))])
  /\ calls (snd (onModuleInit Examples.config_skip
                   (MemStore.fresh Examples.blank))) = [].
Proof.
  split.
  - refine (proj1 (proj2 (proj2
              (onModuleInit_provisions_bucket Examples.config
                 (MemStore.fresh Examples.blank))))
              eq_refl _ (MemStore.settled ∅)
              (MemStore.settled {[ lit "default" := Examples.empty_bucket ]})
              (MemStore.settled
                 {[ lit "default" :=
                      {| MemStore.objects := ∅;
                         MemStore.policy :=
                           Some (JSON_stringify
                                   (Spec.policy_document (lit "default"))) |} ]})
              _ _ _).
    + repeat (apply Forall_cons_2; [reflexivity|]). apply Forall_nil_2.
    + reflexivity.
    + reflexivity.
    + vm_compute. reflexivity.
  - destruct (proj1 (onModuleInit_provisions_bucket Examples.config_skip
                       (MemStore.fresh Examples.blank)) eq_refl)
      as (w1 & w2 & ->).
    reflexivity.
Defined.

(** C5. [deleteFolder] lists the objects under the prefix (recursively) and
    then issues one [removeObjects] with exactly the listed names; when that
    removal is rejected it throws an [InternalServerErrorException] whose
    message names [{bucketName}/{prefix}]. On the reference store: after a
    successful [deleteFolder] a listing under the prefix is empty, and an
    object created between the listing and the removal is still there
    afterwards. *)
Theorem deleteFolder_contract (config : Config) (prefix : jsstring) :
  let bucketName := STORAGE_BUCKET config in
  (forall (S : Type) (client : MinioClient S) (w : World S) stream s1 r s2,
     client_listObjectsV2 bucketName prefix true (store w) = (stream, s1) ->
     failure stream = None ->
     client_removeObjects bucketName (map name (items stream)) s1 = (r, s2) ->
     calls (snd (deleteFolder config prefix w))
     = calls w ++ [CallListObjectsV2 bucketName prefix true;
                   CallRemoveObjects bucketName (map name (items stream))]
     /\ fst (deleteFolder config prefix w)
        = match r with
          | Ok _ => Return tt
          | Err _ =>
              Throw (InternalServerErrorException
                       (lit "There was an error while deleting the folder at the specified path: "
                        ++ bucketName ++ lit "/" ++ prefix ++ lit "."))
          end)
  /\ (forall st : MemStore.State,
        MemStore.faults st = [] ->
        fst (deleteFolder config prefix (MemStore.fresh st)) = Return tt ->
        fst (deleteFolder_list config prefix
               (snd (deleteFolder config prefix (MemStore.fresh st))))
        = Return [])
  /\ (forall (st : MemStore.State) bk objectName buffer meta,
        MemStore.faults st = [] ->
        MemStore.buckets st !! bucketName = Some bk ->
        MemStore.objects bk !! objectName = None ->
        exists objectsList w1,
          deleteFolder_list config prefix (MemStore.fresh st)
          = (Return objectsList, w1)
          /\ let s2 := snd (client_putObject bucketName objectName buffer meta
                              (store w1)) in
             let w2 := {| store := s2; calls := calls w1; logs := logs w1 |} in
             fst (deleteFolder_remove config prefix objectsList w2) = Return tt
             /\ MemStore.object_at bucketName objectName
                  (store (snd (deleteFolder_remove config prefix objectsList w2)))
                = Some {| MemStore.body := buffer; MemStore.metadata := meta |}).
Proof.
  cbv zeta. split; [|split].
  - intros S client w stream s1 r s2 Hl Hf Hrm.
    now destruct (deleteFolder_run config prefix w stream s1 r s2 Hl Hf Hrm)
      as (Hr & Hc & _).
  - apply deleteFolder_then_listing.
  - apply deleteFolder_spares_later_object.
Qed.

(** Deleting the folder of [u1] in a store that holds objects of [u1] and
    [u2]: the two objects of [u1] are listed and removed, and the listing is
    empty afterwards. *)
Lemma deleteFolder_contract_witness :
  fst (deleteFolder Examples.config (lit "u1/")
         (MemStore.fresh Examples.populated)) = Return tt
  /\ length (MemStore.list_names (lit "u1/") true
               (default Examples.empty_bucket
                  (MemStore.buckets Examples.populated !! lit "default")))
     = 2%nat
  /\ fst (deleteFolder_list Examples.config (lit "u1/")
            (snd (deleteFolder Examples.config (lit "u1/")
                    (MemStore.fresh Examples.populated))))
     = Return [].
Proof.
  split; [vm_compute; reflexivity|]. split; [vm_compute; reflexivity|].
  apply (proj1 (proj2 (deleteFolder_contract Examples.config (lit "u1/")))).
  - reflexivity.
  - vm_compute. reflexivity.
Defined.




(** C7. The claim: once the bytes are written, [uploadObject] returns the
    URL whatever the existence check does, also when the check itself fails;
    the code warns and still returns the URL when [statObject] reports
    nothing. But [statObject] is awaited inside the [try] of the write: on a
    store that accepts the write and rejects the check, the document is
    written (it is in the store afterwards) and [uploadObject] throws its
    [InternalServerErrorException] instead of returning the URL. *)
Lemma existence_check_error_fails_upload :
  let run :=
    uploadObject Examples.config (lit "u1") resumes Examples.pdf_bytes
      (lit "My Resume") (MemStore.fresh Examples.flaky) in
  fst run
  = Throw (InternalServerErrorException
             (lit "There was an error while uploading the file."))
  /\ calls (snd run)
     = [CallPutObject (lit "default") (lit "u1/resumes/My%20Resume.pdf")
          Examples.pdf_bytes (Spec.pdf_metadata (lit "My%20Resume"));
        CallStatObject (lit "default") (lit "u1/resumes/My%20Resume.pdf")]
  /\ MemStore.body
       <$> MemStore.object_at (lit "default")
             (lit "u1/resumes/My%20Resume.pdf") (store (snd run))
     = Some Examples.pdf_bytes.
Proof. cbv zeta. repeat split; vm_compute; reflexivity. Qed.

(** The outcome of [uploadObject] once the bytes are written, for any
    client: when the name is encoded, the bytes are normalised and
    [putObject] succeeds, [uploadObject] returns the public URL whenever
    [statObject] returns, whether the value is truthy or not; when
    [statObject] is rejected, [uploadObject] throws its
    [InternalServerErrorException]. *)
Theorem uploadObject_after_write {S : Type} `{MinioClient S} (config : Config)
  userId type buffer filename e b s1 r s2 (w : World S) :
  encodeURIComponent filename = Some e ->
  Spec.normalized type buffer = Some b ->
  client_putObject (STORAGE_BUCKET config) (Spec.object_path userId type e) b
    (Spec.metadata_of type e) (store w) = (Ok tt, s1) ->
  client_statObject (STORAGE_BUCKET config) (Spec.object_path userId type e) s1
  = (r, s2) ->
  fst (uploadObject config userId type buffer filename w)
  = match r with
    | Ok _ =>
        Return (STORAGE_URL config ++ lit "/" ++ Spec.object_path userId type e)
    | Err _ =>
        Throw (InternalServerErrorException
                 (lit "There was an error while uploading the file."))
    end.
Proof.
  intros He Hn Hput Hstat.
  now destruct (uploadObject_put_ok config userId type buffer filename e b s1
                  r s2 w He Hn Hput Hstat) as (Hr & _).
Qed.

(** The document [My Resume] uploaded into the provisioned bucket. *)
Lemma uploadObject_after_write_witness :
  fst (uploadObject Examples.config (lit "u1") resumes Examples.pdf_bytes
         (lit "My Resume") (MemStore.fresh Examples.provisioned))
  = Return (lit "http://resaipro.com/default" ++ lit "/"
            ++ Spec.object_path (lit "u1") resumes (lit "My%20Resume")).
Proof.
  refine (uploadObject_after_write Examples.config (lit "u1") resumes
            Examples.pdf_bytes (lit "My Resume") (lit "My%20Resume")
            Examples.pdf_bytes
            (snd (client_putObject (lit "default")
                    (lit "u1/resumes/My%20Resume.pdf") Examples.pdf_bytes
                    (Spec.pdf_metadata (lit "My%20Resume"))
                    Examples.provisioned))
            (Ok true)
            (snd (client_putObject (lit "default")
                    (lit "u1/resumes/My%20Resume.pdf") Examples.pdf_bytes
                    (Spec.pdf_metadata (lit "My%20Resume"))
                    Examples.provisioned))
            (MemStore.fresh Examples.provisioned) _ _ _ _);
    vm_compute; reflexivity.
Defined.

(** C8, as stated: [deleteObject] on a path without an object surfaces a
    delete error. It fails on a store that, like S3-compatible servers,
    accepts the removal of a missing key: nothing is stored at the path and
    [deleteObject] returns normally. *)
Lemma deleteObject_missing_returns :
  MemStore.object_at (lit "default") (lit "u1/pictures/missing.jpg")
    Examples.provisioned = None
  /\ deleteObject Examples.config (lit "u1") pictures (lit "missing")
       (MemStore.fresh Examples.provisioned)
     = (Return tt,
        {| store := Examples.provisioned;
           calls := [CallRemoveObject (lit "default")
                       (lit "u1/pictures/missing.jpg")];
           logs := [ {| level := LOG;
                        text := lit "Deleting object from Minio: u1/pictures/missing.jpg";
                        detail := None |};
                     {| level := LOG;
                        text := lit "Successfully deleted object from Minio: u1/pictures/missing.jpg";
                        detail := None |} ] |}).
Proof. split; vm_compute; reflexivity. Qed.

(** C8, amended. [deleteObject] never lets the client's error through: it
    returns normally when [removeObject] is accepted and throws an
    [InternalServerErrorException] naming the path when it is rejected,
    whether or not an object is stored at the path; on the reference store,
    where the removal of a missing key is accepted, it returns normally. *)
Theorem deleteObject_outcome (config : Config) userId type filename e :
  encodeURIComponent filename = Some e ->
  let path := Spec.object_path userId type e in
  (forall (S : Type) (client : MinioClient S) (w : World S) r s1,
     client_removeObject (STORAGE_BUCKET config) path (store w) = (r, s1) ->
     fst (deleteObject config userId type filename w)
     = match r with
       | Ok _ => Return tt
       | Err _ =>
           Throw (InternalServerErrorException
                    (lit "There was an error while deleting the document at the specified path: "
                     ++ path ++ lit "."))
       end)
  /\ (forall (st : MemStore.State) bk,
        MemStore.faults st = [] ->
        MemStore.buckets st !! STORAGE_BUCKET config = Some bk ->
        MemStore.objects bk !! path = None ->
        fst (deleteObject config userId type filename (MemStore.fresh st))
        = Return tt).
Proof.
  intros He path. split.
  - intros S client w r s1 Hrm.
    now destruct (deleteObject_run config userId type filename e w r s1 He Hrm)
      as (Hr & _).
  - intros st bk Hf Hb _.
    now destruct (deleteObject_run config userId type filename e
                    (MemStore.fresh st) _ _ He
                    (store_removeObject config st bk path Hf Hb)) as (Hr & _).
Qed.

(** A rejected removal, and the removal of a missing key. *)
Lemma deleteObject_outcome_witness :
  fst (deleteObject Examples.config (lit "u1") pictures (lit "missing")
         (MemStore.fresh Examples.unreachable))
  = Throw (InternalServerErrorException
             (lit "There was an error while deleting the document at the specified path: "
              ++ lit "u1/pictures/missing.jpg" ++ lit "."))
  /\ fst (deleteObject Examples.config (lit "u1") pictures (lit "missing")
            (MemStore.fresh Examples.provisioned))
     = Return tt.
Proof.
  destruct (deleteObject_outcome Examples.config (lit "u1") pictures
              (lit "missing") (lit "missing") eq_refl) as [Hany Hstore].
  split.
  - apply (Hany MemStore.State MemStore.client
             (MemStore.fresh Examples.unreachable)
             (Err Examples.ECONNREFUSED)
             (MemStore.settled {[ lit "default" := Examples.empty_bucket ]})).
    vm_compute. reflexivity.
  - apply (Hstore Examples.provisioned Examples.empty_bucket); reflexivity.
Defined.

(** C10. [deleteFolder] on a prefix without objects: the listing is empty,
    [removeObjects] is still called, with the empty list, and the call
    returns normally. *)
Theorem deleteFolder_empty_prefix (config : Config) (prefix : jsstring)
  (st : MemStore.State) (bk : MemStore.Bucket) :
  MemStore.faults st = [] ->
  MemStore.buckets st !! STORAGE_BUCKET config = Some bk ->
  MemStore.list_names prefix true bk = [] ->
  fst (deleteFolder_list config prefix (MemStore.fresh st)) = Return []
  /\ fst (deleteFolder config prefix (MemStore.fresh st)) = Return tt
  /\ calls (snd (deleteFolder config prefix (MemStore.fresh st)))
     = [CallListObjectsV2 (STORAGE_BUCKET config) prefix true;
        CallRemoveObjects (STORAGE_BUCKET config) []].
Proof.
  intros Hf Hb Hnone.
  pose proof (store_listObjectsV2 config st bk prefix true Hf Hb) as Hl.
  rewrite Hnone in Hl. split.
  - now rewrite (deleteFolder_list_run config prefix (MemStore.fresh st) _ _ Hl).
  - destruct (deleteFolder_run config prefix (MemStore.fresh st) _ _ _ _
                Hl eq_refl
                (store_removeObjects config
                   (MemStore.settled (MemStore.buckets st)) bk [] eq_refl Hb))
      as (Hr & Hc & _).
    split; assumption.
Qed.

(** The folder of a user without objects, in the populated store. *)
Lemma deleteFolder_empty_prefix_witness :
  fst (deleteFolder_list Examples.config (lit "u3/")
         (MemStore.fresh Examples.populated)) = Return []
  /\ fst (deleteFolder Examples.config (lit "u3/")
            (MemStore.fresh Examples.populated)) = Return tt
  /\ calls (snd (deleteFolder Examples.config (lit "u3/")
                   (MemStore.fresh Examples.populated)))
     = [CallListObjectsV2 (lit "default") (lit "u3/") true;
        CallRemoveObjects (lit "default") []].
Proof.
  apply (deleteFolder_empty_prefix Examples.config (lit "u3/")
           Examples.populated
           (default Examples.empty_bucket
              (MemStore.buckets Examples.populated !! lit "default")));
    vm_compute; reflexivity.
Defined.

(** * Further properties of the code *)

Import Observed.

(** ** The encoded file name *)

Lemma hexdigit_unreserved d : 0 <= d < 16 -> uriUnreserved (hexdigit d) = true.
Proof.
  intros Hd. unfold uriUnreserved, hexdigit.
  destruct (d <? 10) eqn:E; bool_hyps.
  - replace ((48 <=? 48 + d) && (48 + d <=? 57)) with true
      by (symmetry; apply andb_true_intro; split; apply Z.leb_le; lia).
    now rewrite !orb_true_r.
  - replace ((65 <=? 55 + d) && (55 + d <=? 90)) with true
      by (symmetry; apply andb_true_intro; split; apply Z.leb_le; lia).
    reflexivity.
Qed.

Lemma escape_octets_units bs :
  Forall (fun b => 0 <= b < 256) bs ->
  Forall uri_component_unit (escape_octets bs).
Proof.
  induction 1 as [|b bs Hb _ IH]; [apply Forall_nil_2|].
  unfold escape_octets. cbn [flat_map escape_octet app].
  apply Forall_cons_2; [now right|].
  apply Forall_cons_2; [left; apply hexdigit_unreserved; zdm|].
  apply Forall_cons_2; [left; apply hexdigit_unreserved; zdm|].
  exact IH.
Qed.

Lemma utf8_encode_octets cp :
  0 <= cp <= 1114111 -> Forall (fun b => 0 <= b < 256) (utf8_encode cp).
Proof.
  intros Hr. unfold utf8_encode.
  destruct (cp <? 128) eqn:E1; [|destruct (cp <? 2048) eqn:E2;
    [|destruct (cp <? 65536) eqn:E3]]; bool_hyps;
    repeat first [apply Forall_nil_2 | apply Forall_cons_2]; zdm.
Qed.

Lemma Encode_units n : forall s e,
  (length s <= n)%nat -> code_units s -> Encode s = Some e ->
  Forall uri_component_unit e.
Proof.
  induction n as [|n IH]; intros s e Hn Hu He.
  - destruct s; [|cbn in Hn; lia]. injection He as <-. apply Forall_nil_2.
  - destruct s as [|c rest]; [injection He as <-; apply Forall_nil_2|].
    cbn [length] in Hn. apply Forall_cons in Hu as [Hc Hrest].
    cbn [Encode] in He.
    destruct (uriUnreserved c) eqn:Eu.
    { destruct (Encode rest) as [r|] eqn:Er; [|discriminate]. injection He as <-.
      apply Forall_cons_2; [now left|]. apply (IH rest); [lia|assumption..]. }
    destruct (is_high_surrogate c) eqn:Eh.
    { destruct rest as [|d rest']; [discriminate|].
      destruct (is_low_surrogate d) eqn:El; [|discriminate].
      destruct (Encode rest') as [r|] eqn:Er; [|discriminate]. injection He as <-.
      apply Forall_cons in Hrest as [Hd Hrest']. cbn [length] in Hn.
      apply Forall_app_2; [|apply (IH rest'); [lia|assumption..]].
      apply escape_octets_units, utf8_encode_octets.
      unfold surrogate_pair_code_point, is_high_surrogate, is_low_surrogate in *.
      bool_hyps. lia. }
    destruct (is_low_surrogate c) eqn:El; [discriminate|].
    destruct (Encode rest) as [r|] eqn:Er; [|discriminate]. injection He as <-.
    apply Forall_app_2; [|apply (IH rest); [lia|assumption..]].
    apply escape_octets_units, utf8_encode_octets.
    unfold code_unit in Hc. lia.
Qed.

(** X1. The encoding of a file name consists of unreserved characters and
    percent escapes only; in particular it contains no ["/"], so the name
    never adds a segment to the object path. *)
Theorem encodeURIComponent_no_separator (name e : jsstring) :
  code_units name -> encodeURIComponent name = Some e ->
  Forall uri_component_unit e /\ ~ In solidus e.
Proof.
  intros Hu He.
  assert (Hall : Forall uri_component_unit e)
    by (apply (Encode_units (length name) name); auto).
  split; [exact Hall|].
  intros Hin. rewrite Forall_forall in Hall.
  apply list_elem_of_In, Hall in Hin. destruct Hin as [Hin|Hin]; discriminate.
Qed.

(** The name [../etc/passwd]. *)
Lemma encodeURIComponent_no_separator_witness :
  encodeURIComponent (lit "../etc/passwd") = Some (lit "..%2Fetc%2Fpasswd")
  /\ ~ In solidus (lit "..%2Fetc%2Fpasswd").
Proof.
  split; [reflexivity|].
  apply (encodeURIComponent_no_separator (lit "../etc/passwd")).
  - unfold code_units, code_unit. cbn.
    repeat (apply Forall_cons_2; [lia|]). apply Forall_nil_2.
  - reflexivity.
Defined.

Lemma Encode_decoded (name e : jsstring) :
  code_units name -> Encode name = Some e -> decodeURIComponent e = Some name.
Proof.
  intros Hu He. unfold decodeURIComponent.
  apply (Decode_Encode_fuel (length name)); auto using Encode_length.
Qed.

(** The last ["/"] of a string determines its two sides. *)
Lemma split_at_last_solidus (a1 a2 b1 b2 : jsstring) :
  ~ In solidus b1 -> ~ In solidus b2 ->
  a1 ++ solidus :: b1 = a2 ++ solidus :: b2 -> a1 = a2 /\ b1 = b2.
Proof.
  intros H1 H2. revert a2.
  induction a1 as [|x a1 IH]; intros [|y a2] Heq; cbn [app] in Heq.
  - injection Heq as Hb. auto.
  - injection Heq as Hy Hb. exfalso. apply H1. rewrite Hb.
    apply in_or_app. right. now left.
  - injection Heq as Hx Hb. exfalso. apply H2. rewrite <- Hb.
    apply in_or_app. right. now left.
  - injection Heq as Hx Hb. destruct (IH a2 Hb) as [Ha Hb']. subst. auto.
Qed.

Lemma UploadType_string_no_solidus type :
  ~ In solidus (UploadType_string type).
Proof.
  destruct type; cbn; unfold solidus; intros H;
    repeat (destruct H as [H|H]; [discriminate|]); exact H.
Qed.

Lemma UploadType_string_inj type1 type2 :
  UploadType_string type1 = UploadType_string type2 -> type1 = type2.
Proof. destruct type1, type2; (reflexivity || discriminate). Qed.

Lemma extension_no_solidus type : ~ In solidus (lit "." ++ Spec.extension type).
Proof.
  destruct type; cbn; unfold solidus; intros H;
    repeat (destruct H as [H|H]; [discriminate|]); exact H.
Qed.

Lemma object_path_determines (userId1 userId2 : jsstring)
  (type1 type2 : UploadType) (name1 name2 e1 e2 : jsstring) :
  code_units name1 -> code_units name2 ->
  encodeURIComponent name1 = Some e1 ->
  encodeURIComponent name2 = Some e2 ->
  Spec.object_path userId1 type1 e1 = Spec.object_path userId2 type2 e2 ->
  userId1 = userId2 /\ type1 = type2 /\ name1 = name2.
Proof.
  intros Hu1 Hu2 He1 He2 Heq. unfold Spec.object_path in Heq.
  assert (Hshape : forall userId type e,
            userId ++ lit "/" ++ UploadType_string type ++ lit "/" ++ e
            ++ lit "." ++ Spec.extension type
            = (userId ++ solidus :: UploadType_string type)
              ++ solidus :: (e ++ lit "." ++ Spec.extension type)).
  { intros userId type e. rewrite <- app_assoc. reflexivity. }
  rewrite !Hshape in Heq. clear Hshape.
  assert (Hfile : forall name e type,
            code_units name -> encodeURIComponent name = Some e ->
            ~ In solidus (e ++ lit "." ++ Spec.extension type)).
  { intros name e type Hu He Hin. apply in_app_or in Hin as [Hin|Hin].
    - apply (Encode_units (length name) name e) in He; auto.
      rewrite Forall_forall in He. apply list_elem_of_In, He in Hin.
      destruct Hin; discriminate.
    - now apply extension_no_solidus in Hin. }
  apply split_at_last_solidus in Heq as [Hdir Hfile'];
    [|now apply (Hfile name1)|now apply (Hfile name2)].
  apply split_at_last_solidus in Hdir as [-> Htype];
    [|apply UploadType_string_no_solidus..].
  apply UploadType_string_inj in Htype as ->.
  apply app_inv_tail in Hfile' as ->.
  split; [reflexivity|]. split; [reflexivity|].
  apply Encode_decoded in He1, He2; auto. congruence.
Qed.

(** X2. Different (user, category, file name) triples are stored under
    different object paths [{userId}/{type}/{encoded name}.{ext}], whatever
    characters the user id and the name contain: the removal issued by
    [deleteObject] for one triple never names the object of another. *)
Theorem object_paths_distinct {S : Type} `{MinioClient S} (config : Config)
  (userId1 userId2 : jsstring) (type1 type2 : UploadType)
  (name1 name2 : jsstring) (w1 w2 : World S) :
  code_units name1 -> code_units name2 ->
  isWellFormed name1 = true -> isWellFormed name2 = true ->
  userId1 <> userId2 \/ type1 <> type2 \/ name1 <> name2 ->
  exists path1 path2,
    calls (snd (deleteObject config userId1 type1 name1 w1))
    = calls w1 ++ [CallRemoveObject (STORAGE_BUCKET config) path1]
    /\ calls (snd (deleteObject config userId2 type2 name2 w2))
       = calls w2 ++ [CallRemoveObject (STORAGE_BUCKET config) path2]
    /\ path1 <> path2.
Proof.
  intros Hu1 Hu2 Hw1 Hw2 Hdiff.
  destruct (isWellFormed_Encode name1 Hw1) as [e1 He1].
  destruct (isWellFormed_Encode name2 Hw2) as [e2 He2].
  exists (Spec.object_path userId1 type1 e1), (Spec.object_path userId2 type2 e2).
  split; [|split].
  - destruct (client_removeObject (STORAGE_BUCKET config)
                (Spec.object_path userId1 type1 e1) (store w1))
      as [r s1] eqn:Hrm.
    now destruct (deleteObject_run config userId1 type1 name1 e1 w1 r s1
                    He1 Hrm) as (_ & Hc & _).
  - destruct (client_removeObject (STORAGE_BUCKET config)
                (Spec.object_path userId2 type2 e2) (store w2))
      as [r s1] eqn:Hrm.
    now destruct (deleteObject_run config userId2 type2 name2 e2 w2 r s1
                    He2 Hrm) as (_ & Hc & _).
  - intros Heq.
    destruct (object_path_determines _ _ _ _ _ _ _ _ Hu1 Hu2 He1 He2 Heq)
      as (Hu & Ht & Hn).
    destruct Hdiff as [Hd|[Hd|Hd]]; contradiction.
Qed.

(** The picture and the preview [a/b] of user [u1]. *)
Lemma object_paths_distinct_witness :
  exists path1 path2,
    calls (snd (deleteObject Examples.config (lit "u1") pictures (lit "a/b")
                  (MemStore.fresh Examples.provisioned)))
    = [] ++ [CallRemoveObject (lit "default") path1]
    /\ calls (snd (deleteObject Examples.config (lit "u1") previews (lit "a/b")
                     (MemStore.fresh Examples.provisioned)))
       = [] ++ [CallRemoveObject (lit "default") path2]
    /\ path1 <> path2.
Proof.
  apply (object_paths_distinct Examples.config (lit "u1") (lit "u1")
           pictures previews (lit "a/b") (lit "a/b")
           (MemStore.fresh Examples.provisioned)
           (MemStore.fresh Examples.provisioned)).
  - unfold code_units, code_unit. cbn.
    repeat (apply Forall_cons_2; [lia|]). apply Forall_nil_2.
  - unfold code_units, code_unit. cbn.
    repeat (apply Forall_cons_2; [lia|]). apply Forall_nil_2.
  - reflexivity.
  - reflexivity.
  - right. left. discriminate.
Defined.

Lemma Encode_unreserved (name : jsstring) :
  Forall (fun u => uriUnreserved u = true) name -> Encode name = Some name.
Proof.
  induction 1 as [|c rest Hc _ IH]; [reflexivity|].
  cbn [Encode]. now rewrite Hc, IH.
Qed.

(** X3. A file name made of unreserved characters only (letters, digits and
    [- _ . ! ~ * ' ( )]) is its own encoding: [deleteObject] removes the
    object at [{userId}/{type}/{name}.{ext}] with the name as it was
    given. *)
Theorem deleteObject_plain_name {S : Type} `{MinioClient S} (config : Config)
  (userId : jsstring) (type : UploadType) (name : jsstring) (w : World S) :
  Forall (fun u => uriUnreserved u = true) name ->
  encodeURIComponent name = Some name
  /\ calls (snd (deleteObject config userId type name w))
     = calls w
       ++ [CallRemoveObject (STORAGE_BUCKET config)
             (userId ++ lit "/" ++ UploadType_string type ++ lit "/" ++ name
              ++ lit "." ++ Spec.extension type)].
Proof.
  intros Hname. pose proof (Encode_unreserved name Hname) as He.
  split; [exact He|].
  destruct (client_removeObject (STORAGE_BUCKET config)
              (Spec.object_path userId type name) (store w)) as [r s1] eqn:Hrm.
  now destruct (deleteObject_run config userId type name name w r s1 He Hrm)
    as (_ & Hc & _).
Qed.

(** The preview [cover-1] of user [u1]. *)
Lemma deleteObject_plain_name_witness :
  calls (snd (deleteObject Examples.config (lit "u1") previews (lit "cover-1")
                (MemStore.fresh Examples.provisioned)))
  = [] ++ [CallRemoveObject (lit "default")
             (lit "u1" ++ lit "/" ++ lit "previews" ++ lit "/" ++ lit "cover-1"
              ++ lit "." ++ lit "jpg")].
Proof.
  refine (proj2 (deleteObject_plain_name Examples.config (lit "u1") previews
                   (lit "cover-1") (MemStore.fresh Examples.provisioned) _)).
  repeat (apply Forall_cons_2; [reflexivity|]). apply Forall_nil_2.
Defined.

(** ** Uploads *)

(** X4. A picture upload whose bytes sharp cannot decode fails before the
    store is involved: [uploadObject] throws its upload error, makes no call
    on the client, and the only line it logs is the error of sharp. *)
Theorem uploadObject_undecodable_picture {S : Type} `{MinioClient S}
  (config : Config) (userId : jsstring) (type : UploadType)
  (bytes : list Byte.byte) (filename e : jsstring) (w : World S) :
  type <> resumes ->
  encodeURIComponent filename = Some e ->
  uploadObject config userId type (Bytes bytes) filename w
  = (Throw (InternalServerErrorException
              (lit "There was an error while uploading the file.")),
     {| store := store w; calls := calls w;
        logs := logs w
                ++ [error_line (lit "Error uploading object to Minio:")
                      SharpError] |}).
Proof.
  intros Ht He. unfold_service. rewrite He.
  destruct type; [| |contradiction]; eval_extension; reflexivity.
Qed.

(** A PDF sent as a picture. *)
Lemma uploadObject_undecodable_picture_witness :
  uploadObject Examples.config (lit "u1") pictures Examples.pdf_bytes
    (lit "avatar") (MemStore.fresh Examples.provisioned)
  = (Throw (InternalServerErrorException
              (lit "There was an error while uploading the file.")),
     {| store := Examples.provisioned; calls := [];
        logs := [] ++ [error_line (lit "Error uploading object to Minio:")
                         SharpError] |}).
Proof.
  apply (uploadObject_undecodable_picture Examples.config (lit "u1") pictures
           [Byte.x25; Byte.x50; Byte.x44; Byte.x46; Byte.x2d]
           (lit "avatar") (lit "avatar")
           (MemStore.fresh Examples.provisioned));
    [discriminate|reflexivity].
Defined.

(** X5. When [putObject] is rejected, [uploadObject] gives up at once: it
    makes no further call (no [statObject], no second [putObject]), throws
    its upload error, and the error of the store survives only in the
    [ERROR] line of the log. *)
Theorem uploadObject_write_rejected {S : Type} `{MinioClient S}
  (config : Config) (userId : jsstring) (type : UploadType)
  (buffer b : Buffer) (filename e : jsstring) (err : S3Error) (s1 : S)
  (w : World S) :
  encodeURIComponent filename = Some e ->
  Spec.normalized type buffer = Some b ->
  client_putObject (STORAGE_BUCKET config) (Spec.object_path userId type e) b
    (Spec.metadata_of type e) (store w) = (Err err, s1) ->
  uploadObject config userId type buffer filename w
  = (Throw (InternalServerErrorException
              (lit "There was an error while uploading the file.")),
     {| store := s1;
        calls := calls w
                 ++ [CallPutObject (STORAGE_BUCKET config)
                       (Spec.object_path userId type e) b
                       (Spec.metadata_of type e)];
        logs := logs w
                ++ [log_line (lit "Uploading object to Minio: "
                              ++ Spec.object_path userId type e);
                    error_line (lit "Error uploading object to Minio:")
                      (StoreError err)] |}).
Proof.
  intros He Hn Hput. unfold_service. rewrite He.
  destruct type; eval_extension; cbn [Spec.normalized] in Hn;
    try (injection Hn as ->);
    unfold_spec; try rewrite Hn;
    cbn [Spec.metadata_of] in *; unfold_spec; join_extension;
    simpl_world; rewrite Hput; simpl_world;
    unfold error_line, log_line; rewrite <- ?app_assoc; reflexivity.
Qed.

(** A document sent to a store that rejects the call. *)
Lemma uploadObject_write_rejected_witness :
  calls (snd (uploadObject Examples.config (lit "u1") resumes
                Examples.pdf_bytes (lit "cv")
                (MemStore.fresh Examples.unreachable)))
  = [] ++ [CallPutObject (lit "default")
             (Spec.object_path (lit "u1") resumes (lit "cv"))
             Examples.pdf_bytes (Spec.metadata_of resumes (lit "cv"))].
Proof.
  rewrite (uploadObject_write_rejected Examples.config (lit "u1") resumes
             Examples.pdf_bytes Examples.pdf_bytes (lit "cv") (lit "cv")
             Examples.ECONNREFUSED
             (MemStore.settled {[ lit "default" := Examples.empty_bucket ]})
             (MemStore.fresh Examples.unreachable));
    reflexivity.
Defined.



(** ** Failures of the listing, of the existence check and of the creation *)

(** X8. When the listing stream of [deleteFolder] fails, nothing is removed
    and nothing is logged: the only call is [listObjectsV2], no
    [removeObjects] follows, the log is as it was, and the error of the
    stream is thrown. *)
Theorem deleteFolder_listing_failure_silent {S : Type} `{MinioClient S}
  (config : Config) (prefix : jsstring) (w : World S)
  (stream : ObjectStream) (s1 : S) (e : S3Error) :
  client_listObjectsV2 (STORAGE_BUCKET config) prefix true (store w)
  = (stream, s1) ->
  failure stream = Some e ->
  deleteFolder config prefix w
  = (Throw (StoreError e),
     {| store := s1;
        calls := calls w
                 ++ [CallListObjectsV2 (STORAGE_BUCKET config) prefix true];
        logs := logs w |}).
Proof.
  intros Hl Hf. unfold deleteFolder, mbind, M_bind, bind.
  now rewrite (deleteFolder_list_run config prefix w stream s1 Hl), Hf.
Qed.

(** The folder of [u1] in a store that rejects the call. *)
Lemma deleteFolder_listing_failure_silent_witness :
  deleteFolder Examples.config (lit "u1/")
    (MemStore.fresh Examples.unreachable)
  = (Throw (StoreError Examples.ECONNREFUSED),
     {| store := MemStore.settled {[ lit "default" := Examples.empty_bucket ]};
        calls := [] ++ [CallListObjectsV2 (lit "default") (lit "u1/") true];
        logs := [] |}).
Proof.
  apply (deleteFolder_listing_failure_silent Examples.config (lit "u1/")
           (MemStore.fresh Examples.unreachable)
           {| items := []; failure := Some Examples.ECONNREFUSED |});
    reflexivity.
Defined.

(** X9. [bucketExists] returns normally exactly when the client reports
    that the bucket exists. When the client reports that it does not, the
    exception thrown inside the [try] is caught by the method's own [catch],
    logged as an error and thrown again. *)
Theorem bucketExists_returns_iff {S : Type} `{MinioClient S}
  (config : Config) (w : World S) :
  (fst (Storage.bucketExists config w) = Return tt
   <-> exists s1,
         client_bucketExists (STORAGE_BUCKET config) (store w) = (Ok true, s1))
  /\ (forall s1,
        client_bucketExists (STORAGE_BUCKET config) (store w) = (Ok false, s1) ->
        let missing :=
          InternalServerErrorException
            (lit "There was an error while checking if the storage bucket exists.") in
        Storage.bucketExists config w
        = (Throw missing,
           {| store := s1;
              calls := calls w ++ [CallBucketExists (STORAGE_BUCKET config)];
              logs := logs w
                      ++ [log_line (lit "Bucket " ++ STORAGE_BUCKET config
                                    ++ lit " exists: " ++ lit "false");
                          error_line (lit "Error checking if bucket exists:")
                            missing] |})).
Proof.
  split.
  - destruct (client_bucketExists (STORAGE_BUCKET config) (store w))
      as [r s1] eqn:Hex.
    destruct (bucketExists_run config w r s1 Hex) as (Hr & _). rewrite Hr.
    split.
    + destruct r as [[]|]; [eauto|discriminate..].
    + intros [s1' [= -> _]]. reflexivity.
  - intros s1 Hex. cbv zeta. unfold_service. rewrite Hex. simpl_world.
    unfold log_line, error_line. cbn [bool_string negb]. simpl_world.
    now rewrite <- app_assoc.
Qed.

(** [bucketExists] before and after the bucket is there. *)
Lemma bucketExists_returns_iff_witness :
  fst (Storage.bucketExists Examples.config
         (MemStore.fresh Examples.provisioned)) = Return tt
  /\ fst (Storage.bucketExists Examples.config (MemStore.fresh Examples.blank))
     = Throw (InternalServerErrorException
                (lit "There was an error while checking if the storage bucket exists.")).
Proof.
  destruct (bucketExists_returns_iff Examples.config
              (MemStore.fresh Examples.provisioned)) as [[_ Hback] _].
  destruct (bucketExists_returns_iff Examples.config
              (MemStore.fresh Examples.blank)) as [_ Hmissing].
  split.
  - apply Hback. exists Examples.provisioned. reflexivity.
  - rewrite (Hmissing Examples.blank eq_refl). reflexivity.
Defined.

(** X10. When [makeBucket] is rejected at start-up, [setBucketPolicy] is
    never called; the exception of the inner [catch] is caught again by the
    outer one, so two error lines are logged and the exception thrown wraps
    the first one. *)
Theorem onModuleInit_creation_rejected {S : Type} `{MinioClient S}
  (config : Config) (w : World S) (e : S3Error) (s1 s2 : S) :
  STORAGE_SKIP_BUCKET_CHECK config = false ->
  client_bucketExists (STORAGE_BUCKET config) (store w) = (Ok false, s1) ->
  client_makeBucket (STORAGE_BUCKET config) s1 = (Err e, s2) ->
  let creation_failed :=
    InternalServerErrorException
      (lit "There was an error while creating the storage bucket.") in
  onModuleInit config w
  = (Throw (InternalServerErrorExceptionOf creation_failed),
     {| store := s2;
        calls := calls w ++ [CallBucketExists (STORAGE_BUCKET config);
                             CallMakeBucket (STORAGE_BUCKET config)];
        logs := logs w
                ++ [log_line (lit "Checking if bucket " ++ STORAGE_BUCKET config
                              ++ lit " exists...");
                    log_line (lit "Bucket " ++ STORAGE_BUCKET config
                              ++ lit " does not exist. Creating it...");
                    error_line (lit "Error creating the storage bucket:")
                      (StoreError e);
                    error_line (lit "Error checking the storage bucket:")
                      creation_failed] |}).
Proof.
  intros Hs Hex Hmk. cbv zeta. unfold_service. rewrite Hs. simpl_world.
  rewrite Hex. simpl_world. rewrite Hmk. simpl_world.
  unfold log_line, error_line. now rewrite <- !app_assoc.
Qed.

(** Start-up against a store that accepts the check and rejects the
    creation. *)
Lemma onModuleInit_creation_rejected_witness :
  calls (snd (onModuleInit Examples.config
                (MemStore.fresh MoreExamples.creation_denied)))
  = [] ++ [CallBucketExists (lit "default"); CallMakeBucket (lit "default")].
Proof.
  rewrite (onModuleInit_creation_rejected Examples.config
             (MemStore.fresh MoreExamples.creation_denied)
             MoreExamples.AccessDenied
             {| MemStore.buckets := ∅;
                MemStore.faults := [Some MoreExamples.AccessDenied] |}
             (MemStore.settled ∅));
    reflexivity.
Defined.

(** ** The service over the reference store, continued *)

Ltac unfold_store_ops :=
  cbn [client_bucketExists client_makeBucket client_setBucketPolicy
       client_putObject client_statObject client_removeObject
       client_listObjectsV2 client_removeObjects MemStore.client];
  unfold MemStore.bucketExists, MemStore.makeBucket, MemStore.setBucketPolicy,
    MemStore.putObject, MemStore.statObject, MemStore.removeObject,
    MemStore.listObjectsV2, MemStore.removeObjects, MemStore.guarded.

Lemma settled_eq (st : MemStore.State) :
  MemStore.faults st = [] -> MemStore.settled (MemStore.buckets st) = st.
Proof. destruct st as [bs fs]. cbn. now intros ->. Qed.

Lemma bucket_eta (bk : MemStore.Bucket) :
  {| MemStore.objects := MemStore.objects bk;
     MemStore.policy := MemStore.policy bk |} = bk.
Proof. now destruct bk. Qed.

Lemma store_uploadObject_state (config : Config) userId type buffer filename
  e b bk (w : World MemStore.State) :
  encodeURIComponent filename = Some e ->
  Spec.normalized type buffer = Some b ->
  MemStore.faults (store w) = [] ->
  MemStore.buckets (store w) !! STORAGE_BUCKET config = Some bk ->
  fst (uploadObject config userId type buffer filename w)
  = Return (Spec.public_url config (Spec.object_path userId type e))
  /\ store (snd (uploadObject config userId type buffer filename w))
     = MemStore.settled
         (<[STORAGE_BUCKET config :=
              {| MemStore.objects :=
                   <[Spec.object_path userId type e :=
                       {| MemStore.body := b;
                          MemStore.metadata := Spec.metadata_of type e |}]>
                     (MemStore.objects bk);
                 MemStore.policy := MemStore.policy bk |}]>
            (MemStore.buckets (store w))).
Proof.
  intros He Hn Hf Hb.
  pose proof (store_putObject config (store w) bk
                (Spec.object_path userId type e) b
                (Spec.metadata_of type e) Hf Hb) as Hput.
  set (s1 := MemStore.settled _) in Hput.
  assert (Hstat : client_statObject (STORAGE_BUCKET config)
                    (Spec.object_path userId type e) s1
                  = (Ok true, MemStore.settled (MemStore.buckets s1))).
  { eapply store_statObject;
      [reflexivity | apply lookup_insert_eq | apply lookup_insert_eq]. }
  destruct (uploadObject_put_ok config userId type buffer filename e b
              _ _ _ w He Hn Hput Hstat)
    as (Hr & _ & Hst).
  split; [exact Hr|]. rewrite Hst. reflexivity.
Qed.

(** X11. An upload followed by the deletion of the same (user, category,
    file name) is a round trip: when nothing was stored at the path before,
    both calls return normally and the store ends exactly as it began. *)
Theorem uploadObject_then_deleteObject (config : Config)
  (userId : jsstring) (type : UploadType) (buffer b : Buffer)
  (filename e : jsstring) (st : MemStore.State) (bk : MemStore.Bucket) :
  encodeURIComponent filename = Some e ->
  Spec.normalized type buffer = Some b ->
  MemStore.faults st = [] ->
  MemStore.buckets st !! STORAGE_BUCKET config = Some bk ->
  MemStore.objects bk !! Spec.object_path userId type e = None ->
  let uploaded :=
    uploadObject config userId type buffer filename (MemStore.fresh st) in
  let deleted := deleteObject config userId type filename (snd uploaded) in
  fst uploaded
  = Return (STORAGE_URL config ++ lit "/" ++ Spec.object_path userId type e)
  /\ MemStore.object_at (STORAGE_BUCKET config)
       (Spec.object_path userId type e) (store (snd uploaded))
     = Some {| MemStore.body := b;
               MemStore.metadata := Spec.metadata_of type e |}
  /\ fst deleted = Return tt
  /\ store (snd deleted) = st.
Proof.
  intros He Hn Hf Hb Hnew. cbv zeta.
  destruct (store_uploadObject_state config userId type buffer filename e b
              bk (MemStore.fresh st) He Hn Hf Hb) as (Hr & Hst).
  cbn [MemStore.fresh store] in Hst.
  split; [exact Hr|]. split.
  { rewrite Hst. unfold MemStore.object_at.
    cbn [MemStore.settled MemStore.buckets]. rewrite lookup_insert_eq.
    cbn [MemStore.objects]. apply lookup_insert_eq. }
  set (w1 := snd (uploadObject config userId type buffer filename
                    (MemStore.fresh st))) in *.
  destruct (deleteObject_run config userId type filename e w1 _ _ He
              (store_removeObject config (store w1) _
                 (Spec.object_path userId type e)
                 ltac:(rewrite Hst; reflexivity)
                 ltac:(rewrite Hst; apply lookup_insert_eq)))
    as (Hd & _ & Hst2).
  split; [exact Hd|]. rewrite Hst2, Hst.
  cbn [MemStore.settled MemStore.buckets MemStore.objects MemStore.policy].
  rewrite insert_insert_eq, delete_insert_id by assumption.
  rewrite bucket_eta, insert_id by assumption.
  now apply settled_eq.
Qed.

(** The document [My Resume] of [u1], uploaded and deleted again. *)
Lemma uploadObject_then_deleteObject_witness :
  store (snd (deleteObject Examples.config (lit "u1") resumes (lit "My Resume")
                (snd (uploadObject Examples.config (lit "u1") resumes
                        Examples.pdf_bytes (lit "My Resume")
                        (MemStore.fresh Examples.provisioned)))))
  = Examples.provisioned.
Proof.
  apply (uploadObject_then_deleteObject Examples.config (lit "u1") resumes
           Examples.pdf_bytes Examples.pdf_bytes (lit "My Resume")
           (lit "My%20Resume") Examples.provisioned Examples.empty_bucket);
    reflexivity.
Defined.

(** X12. The last upload wins: both uploads under the same (user,
    category, file name) return the public URL of the one path, the second
    replaces the object of the first, and every other object of the bucket
    is left as it was. *)
Theorem uploadObject_overwrites (config : Config)
  (userId : jsstring) (type : UploadType) (buffer1 buffer2 b1 b2 : Buffer)
  (filename e : jsstring) (st : MemStore.State) (bk : MemStore.Bucket) :
  encodeURIComponent filename = Some e ->
  Spec.normalized type buffer1 = Some b1 ->
  Spec.normalized type buffer2 = Some b2 ->
  MemStore.faults st = [] ->
  MemStore.buckets st !! STORAGE_BUCKET config = Some bk ->
  let first :=
    uploadObject config userId type buffer1 filename (MemStore.fresh st) in
  let second := uploadObject config userId type buffer2 filename (snd first) in
  (fst first
   = Return (STORAGE_URL config ++ lit "/" ++ Spec.object_path userId type e)
   /\ fst second = fst first)
  /\ MemStore.object_at (STORAGE_BUCKET config)
       (Spec.object_path userId type e) (store (snd second))
     = Some {| MemStore.body := b2;
               MemStore.metadata := Spec.metadata_of type e |}
  /\ (forall objectName,
        objectName <> Spec.object_path userId type e ->
        MemStore.object_at (STORAGE_BUCKET config) objectName
          (store (snd second))
        = MemStore.object_at (STORAGE_BUCKET config) objectName st).
Proof.
  intros He Hn1 Hn2 Hf Hb. cbv zeta.
  destruct (store_uploadObject_state config userId type buffer1 filename e b1
              bk (MemStore.fresh st) He Hn1 Hf Hb) as (Hr1 & Hst1).
  cbn [MemStore.fresh store] in Hst1.
  set (w1 := snd (uploadObject config userId type buffer1 filename
                    (MemStore.fresh st))) in *.
  destruct (store_uploadObject_state config userId type buffer2 filename e b2
              _ w1 He Hn2
              ltac:(rewrite Hst1; reflexivity)
              ltac:(rewrite Hst1; apply lookup_insert_eq)) as (Hr2 & Hst2).
  split; [split; [exact Hr1|congruence]|].
  rewrite Hst2, Hst1. unfold MemStore.object_at.
  cbn [MemStore.settled MemStore.buckets MemStore.objects MemStore.policy].
  rewrite !lookup_insert_eq. cbn [MemStore.objects]. split.
  - apply lookup_insert_eq.
  - intros objectName Hne. rewrite Hb.
    now rewrite !lookup_insert_ne by congruence.
Qed.

(** Two versions of the document [cv] of user [u1], next to the objects of
    the populated store. *)
Lemma uploadObject_overwrites_witness :
  MemStore.object_at (lit "default")
    (Spec.object_path (lit "u1") resumes (lit "cv"))
    (store (snd (uploadObject Examples.config (lit "u1") resumes
                   (Bytes [Byte.x25; Byte.x32]) (lit "cv")
                   (snd (uploadObject Examples.config (lit "u1") resumes
                           (Bytes [Byte.x25; Byte.x31]) (lit "cv")
                           (MemStore.fresh Examples.populated))))))
  = Some {| MemStore.body := Bytes [Byte.x25; Byte.x32];
            MemStore.metadata := Spec.metadata_of resumes (lit "cv") |}.
Proof.
  refine (proj1 (proj2
            (uploadObject_overwrites Examples.config (lit "u1") resumes
               (Bytes [Byte.x25; Byte.x31]) (Bytes [Byte.x25; Byte.x32])
               (Bytes [Byte.x25; Byte.x31]) (Bytes [Byte.x25; Byte.x32])
               (lit "cv") (lit "cv") Examples.populated
               (default Examples.empty_bucket
                  (MemStore.buckets Examples.populated !! lit "default"))
               _ _ _ _ _)));
    vm_compute; reflexivity.
Defined.

(** X13. [deleteFolder] removes exactly the objects whose name starts with
    the prefix: afterwards no such object is left, and every other object of
    the bucket is as it was. (The prefix is compared code unit by code unit,
    so [u1] also covers the objects of [u10].) *)
Theorem deleteFolder_removes_exactly (config : Config) (prefix : jsstring)
  (st : MemStore.State) (bk : MemStore.Bucket) :
  MemStore.faults st = [] ->
  MemStore.buckets st !! STORAGE_BUCKET config = Some bk ->
  fst (deleteFolder config prefix (MemStore.fresh st)) = Return tt
  /\ (forall objectName,
        MemStore.object_at (STORAGE_BUCKET config) objectName
          (store (snd (deleteFolder config prefix (MemStore.fresh st))))
        = if starts_with prefix objectName then None
          else MemStore.object_at (STORAGE_BUCKET config) objectName st).
Proof.
  intros Hf Hb.
  pose proof (store_listObjectsV2 config st bk prefix true Hf Hb) as Hl.
  destruct (deleteFolder_run config prefix (MemStore.fresh st) _ _ _ _
              Hl eq_refl
              (store_removeObjects config
                 (MemStore.settled (MemStore.buckets st)) bk _ eq_refl Hb))
    as (Hr & _ & Hst).
  split; [exact Hr|]. intros objectName. rewrite Hst.
  cbn [items]. rewrite names_of_items.
  unfold MemStore.object_at. cbn [MemStore.settled MemStore.buckets].
  rewrite lookup_insert_eq, Hb. cbn [MemStore.objects].
  destruct (starts_with prefix objectName) eqn:Hp.
  - destruct (MemStore.objects bk !! objectName) as [o|] eqn:Ho.
    + apply lookup_foldr_delete, list_elem_of_In, list_names_spec.
      split; [|eauto]. unfold MemStore.listed. now rewrite Hp.
    + rewrite lookup_foldr_delete_not_elem_of; [assumption|].
      intros Hin. apply list_elem_of_In, list_names_spec in Hin as [_ [o Ho']].
      congruence.
  - apply lookup_foldr_delete_not_elem_of.
    intros Hin. apply list_elem_of_In, list_names_spec in Hin as [Hl' _].
    unfold MemStore.listed in Hl'. rewrite Hp in Hl'. discriminate.
Qed.

(** Deleting the folder [u1/] of the populated store: the document of [u1]
    is gone, the document of [u2] is still there. *)
Lemma deleteFolder_removes_exactly_witness :
  MemStore.object_at (lit "default") (lit "u1/resumes/cv.pdf")
    (store (snd (deleteFolder Examples.config (lit "u1/")
                   (MemStore.fresh Examples.populated))))
  = None
  /\ MemStore.object_at (lit "default") (lit "u2/resumes/cv.pdf")
       (store (snd (deleteFolder Examples.config (lit "u1/")
                      (MemStore.fresh Examples.populated))))
     = MemStore.object_at (lit "default") (lit "u2/resumes/cv.pdf")
         Examples.populated.
Proof.
  destruct (deleteFolder_removes_exactly Examples.config (lit "u1/")
              Examples.populated
              (default Examples.empty_bucket
                 (MemStore.buckets Examples.populated !! lit "default")))
    as [_ Hall]; [vm_compute; reflexivity..|].
  split.
  - exact (Hall (lit "u1/resumes/cv.pdf")).
  - exact (Hall (lit "u2/resumes/cv.pdf")).
Defined.

Lemma store_bucketExists (config : Config) (st : MemStore.State) :
  MemStore.faults st = [] ->
  client_bucketExists (STORAGE_BUCKET config) st
  = (Ok (bool_decide (is_Some (MemStore.buckets st !! STORAGE_BUCKET config))),
     MemStore.settled (MemStore.buckets st)).
Proof. intros Hf. unfold_store_ops. now rewrite Hf. Qed.

(** X14. Provisioning is idempotent: on a store without the bucket, a first
    [onModuleInit] creates it with the public-read policy, and a second one
    only checks that the bucket exists and leaves the store untouched. *)
Theorem onModuleInit_idempotent (config : Config)
  (bs : gmap jsstring MemStore.Bucket) :
  STORAGE_SKIP_BUCKET_CHECK config = false ->
  bs !! STORAGE_BUCKET config = None ->
  let first := onModuleInit config (MemStore.fresh (MemStore.settled bs)) in
  let second := onModuleInit config (MemStore.fresh (store (snd first))) in
  fst first = Return tt
  /\ store (snd first)
     = MemStore.settled
         (<[STORAGE_BUCKET config :=
              {| MemStore.objects := ∅;
                 MemStore.policy := Some (bucketPolicy config) |}]> bs)
  /\ fst second = Return tt
  /\ calls (snd second) = [CallBucketExists (STORAGE_BUCKET config)]
  /\ store (snd second) = store (snd first).
Proof.
  intros Hs Hb. cbv zeta.
  assert (Hfirst :
            fst (onModuleInit config (MemStore.fresh (MemStore.settled bs)))
            = Return tt
            /\ store (snd (onModuleInit config
                             (MemStore.fresh (MemStore.settled bs))))
               = MemStore.settled
                   (<[STORAGE_BUCKET config :=
                        {| MemStore.objects := ∅;
                           MemStore.policy := Some (bucketPolicy config) |}]>
                      bs)).
  { destruct (onModuleInit_created config
                (MemStore.fresh (MemStore.settled bs))
                (MemStore.settled bs)
                (MemStore.settled
                   (<[STORAGE_BUCKET config :=
                        {| MemStore.objects := ∅; MemStore.policy := None |}]>
                      bs))
                (MemStore.settled
                   (<[STORAGE_BUCKET config :=
                        {| MemStore.objects := ∅;
                           MemStore.policy := Some (bucketPolicy config) |}]>
                      bs))
                Hs) as (Hr & _ & Hst).
    - rewrite store_bucketExists by reflexivity.
      cbn [MemStore.fresh store MemStore.settled MemStore.buckets].
      rewrite Hb. reflexivity.
    - unfold_store_ops. cbn [MemStore.settled MemStore.faults MemStore.buckets].
      now rewrite Hb.
    - unfold_store_ops. cbn [MemStore.settled MemStore.faults MemStore.buckets].
      rewrite lookup_insert_eq. cbn [MemStore.objects].
      now rewrite insert_insert_eq.
    - auto. }
  destruct Hfirst as [Hr Hst]. split; [exact Hr|]. split; [exact Hst|].
  rewrite Hst.
  destruct (onModuleInit_exists config
              (MemStore.fresh
                 (MemStore.settled
                    (<[STORAGE_BUCKET config :=
                         {| MemStore.objects := ∅;
                            MemStore.policy := Some (bucketPolicy config) |}]>
                       bs)))
              _ Hs
              ltac:(rewrite store_bucketExists by reflexivity;
                    cbn [MemStore.fresh store MemStore.settled
                         MemStore.buckets];
                    rewrite lookup_insert_eq; reflexivity))
    as (Hr2 & Hc2 & Hst2).
  auto.
Qed.

(** Two start-ups against a store without the bucket. *)
Lemma onModuleInit_idempotent_witness :
  calls (snd (onModuleInit Examples.config
                (MemStore.fresh
                   (store (snd (onModuleInit Examples.config
                                  (MemStore.fresh (MemStore.settled ∅))))))))
  = [CallBucketExists (lit "default")].
Proof.
  exact (proj1 (proj2 (proj2 (proj2
           (onModuleInit_idempotent Examples.config ∅ eq_refl eq_refl))))).
Defined.

(** X15. A policy that could not be applied is never applied later: when
    [setBucketPolicy] is rejected at the first start-up, the bucket stays
    without a policy, and the next start-up finds the bucket, returns
    normally and does not call [setBucketPolicy]. *)
Theorem onModuleInit_policy_not_repaired (config : Config)
  (bs : gmap jsstring MemStore.Bucket) (e : S3Error) :
  STORAGE_SKIP_BUCKET_CHECK config = false ->
  bs !! STORAGE_BUCKET config = None ->
  let first :=
    onModuleInit config
      (MemStore.fresh {| MemStore.buckets := bs;
                         MemStore.faults := [None; None; Some e] |}) in
  let second := onModuleInit config (MemStore.fresh (store (snd first))) in
  fst first
  = Throw (InternalServerErrorExceptionOf
             (InternalServerErrorException
                (lit "There was an error while applying the policy to the storage bucket.")))
  /\ fst second = Return tt
  /\ calls (snd second) = [CallBucketExists (STORAGE_BUCKET config)]
  /\ MemStore.policy
       <$> (MemStore.buckets (store (snd second)) !! STORAGE_BUCKET config)
     = Some None.
Proof.
  intros Hs Hb. cbv zeta.
  destruct (onModuleInit_policy_failed config
              (MemStore.fresh {| MemStore.buckets := bs;
                                 MemStore.faults := [None; None; Some e] |})
              e
              {| MemStore.buckets := bs; MemStore.faults := [None; Some e] |}
              {| MemStore.buckets :=
                   <[STORAGE_BUCKET config :=
                       {| MemStore.objects := ∅; MemStore.policy := None |}]>
                     bs;
                 MemStore.faults := [Some e] |}
              (MemStore.settled
                 (<[STORAGE_BUCKET config :=
                      {| MemStore.objects := ∅; MemStore.policy := None |}]>
                    bs))
              Hs) as (Hr & _ & Hst).
  - unfold_store_ops. cbn [MemStore.fresh store MemStore.faults MemStore.buckets].
    now rewrite Hb.
  - unfold_store_ops. cbn [MemStore.faults MemStore.buckets]. now rewrite Hb.
  - unfold_store_ops. cbn [MemStore.faults MemStore.buckets]. reflexivity.
  - split; [exact Hr|]. rewrite Hst.
    destruct (onModuleInit_exists config
                (MemStore.fresh
                   (MemStore.settled
                      (<[STORAGE_BUCKET config :=
                           {| MemStore.objects := ∅;
                              MemStore.policy := None |}]> bs)))
                _ Hs
                ltac:(rewrite store_bucketExists by reflexivity;
                      cbn [MemStore.fresh store MemStore.settled
                           MemStore.buckets];
                      rewrite lookup_insert_eq; reflexivity))
      as (Hr2 & Hc2 & Hst2).
    split; [exact Hr2|]. split; [exact Hc2|]. rewrite Hst2.
    cbn [MemStore.settled MemStore.buckets]. now rewrite lookup_insert_eq.
Qed.

(** Start-up against a store that rejects the policy, then once more. *)
Lemma onModuleInit_policy_not_repaired_witness :
  MemStore.policy
    <$> (MemStore.buckets
           (store (snd (onModuleInit Examples.config
                          (MemStore.fresh
                             (store (snd (onModuleInit Examples.config
                                            (MemStore.fresh
                                               MoreExamples.policy_denied))))))))
         !! lit "default")
  = Some None.
Proof.
  exact (proj2 (proj2 (proj2
           (onModuleInit_policy_not_repaired Examples.config ∅
              MoreExamples.AccessDenied eq_refl eq_refl)))).
Defined.

(** ** The client *)


